(** * ODL discretization layer and ufunc dispatch: a shallow embedding

    The development follows the three source files

    - [odl/discr/discretization.py]  (module [Discr]),
    - [odl/discr/default.py]         (module [Default]),
    - [odl/util/ufuncs.py]           (module [Ufuncs]).

    Python objects with identity live in a heap (a list indexed by
    location); exceptions are an explicit error monad; dictionaries are
    [gmap]s. *)

From Stdlib Require Import ZArith String List Bool Lia.
From stdpp Require Import base option list strings gmap.

Set Warnings "-register-all".

(** ** Python core: exceptions, results, [isinstance] *)

Module Py.

(** The exception classes raised in the sources, with the message
    template of the raise site. *)
Inductive exn : Type :=
| TypeError (msg : string)
| ValueError (msg : string)
| NotImplementedError (msg : string)
| AttributeError (msg : string)
| KeyError (msg : string)
| IndexError (msg : string).

Inductive result (A : Type) : Type :=
| Ok (a : A)
| Raise (e : exn).

Arguments Ok {A} a.
Arguments Raise {A} e.

#[global] Instance result_ret : MRet result := @Ok.

#[global] Instance result_bind : MBind result :=
  fun A B f m => match m with Ok a => f a | Raise e => Raise e end.

Definition is_Ok {A} (r : result A) : bool :=
  match r with Ok _ => true | Raise _ => false end.

(** [isinstance(o, cls)]: [cls] occurs in the method resolution order of
    the class of [o]. *)
Definition isinstance (mro : list string) (cls : string) : bool :=
  bool_decide (cls ∈ mro).

(** [x in (a, b, ...)] on strings. *)
Definition str_in (x : string) (t : list string) : bool :=
  bool_decide (x ∈ t).

(** Stateful code: a state-and-exception monad over the state [S]. *)
Definition M (S A : Type) : Type := S → result (A * S).

#[global] Instance M_ret {S} : MRet (M S) := λ A a s, Ok (a, s).

#[global] Instance M_bind {S} : MBind (M S) := λ A B f m s,
  match m s with
  | Ok (a, s') => f a s'
  | Raise e => Raise e
  end.

Definition raise {S A} (e : exn) : M S A := λ _, Raise e.

Definition lift {S A} (r : result A) : M S A := λ s,
  match r with Ok a => Ok (a, s) | Raise e => Raise e end.

Definition get_state {S} : M S S := λ s, Ok (s, s).

(** [[f(x) for x in xs]]: the calls run from left to right. *)
Fixpoint mapM {S A B} (f : A → M S B) (xs : list A) : M S (list B) :=
  match xs with
  | [] => mret []
  | x :: xs' => y ← f x; ys ← mapM f xs'; mret (y :: ys)
  end.

End Py.

(** ** odl/discr/discretization.py *)

Module Discr.
Import Py.

(** *** External collaborators

    Spaces and operators are defined outside of the module; the module
    only looks at their class ([isinstance]), at a few attributes and at
    their own [==]. *)

Record space : Type := Space {
  sp_name : string;            (* what the space's own [==] compares *)
  sp_mro : list string;        (* classes the space is an instance of *)
  sp_Vector : string;          (* the element class [space.Vector] *)
  sp_mro_Vector : list string; (* the base classes of [space.Vector] *)
  sp_dim : nat;
  sp_dtype : string;
  sp_field : option string     (* class of [space.field], if the attribute exists *)
}.

#[global] Instance space_eq_dec : EqDecision space.
Proof. solve_decision. Defined.

Record operator : Type := Operator {
  op_name : string;
  op_mro : list string;
  op_domain : space;
  op_range : space;
  op_order : option string     (* [hasattr(op, 'order')] *)
}.

#[global] Instance operator_eq_dec : EqDecision operator.
Proof. solve_decision. Defined.

(** *** RawDiscretization / Discretization objects *)

(** The attributes owned by the [NtuplesBase] / [FnBase] base classes. *)
Record ntuples_base : Type := MkBase {
  _dim : nat;
  _dtype : string
}.

#[global] Instance ntuples_base_eq_dec : EqDecision ntuples_base.
Proof. solve_decision. Defined.

Record discretization : Type := MkDiscr {
  d_mro : list string;         (* class of the instance *)
  d_base : ntuples_base;       (* set by the base-class initialisers *)
  _uspace : space;
  _dspace : space;
  _restriction : option operator;
  _extension : option operator;
  _order : string
}.

#[global] Instance discretization_eq_dec : EqDecision discretization.
Proof. solve_decision. Defined.

(** Modelled from the spec: [NtuplesBase.__init__(dim, dtype)] and
    [FnBase.__init__(dim, dtype)] are missing from the sources; a
    data-space family member "exposes dimension and element dtype", so
    the base initialisers store the two values they are given. *)
Definition NtuplesBase__init__ (dim : nat) (dtype : string) : ntuples_base :=
  MkBase dim dtype.

Definition FnBase__init__ (dim : nat) (dtype : string) : ntuples_base :=
  MkBase dim dtype.

(** Modelled from the spec: the property [dim] inherited from
    [NtuplesBase] is missing from the sources; it reads what the base
    initialiser stored. *)
Definition dim (self : discretization) : nat := _dim (d_base self).

(** Modelled from the spec: the property [dtype] inherited from
    [NtuplesBase] is missing from the sources; it reads what the base
    initialiser stored. *)
Definition dtype (self : discretization) : string := _dtype (d_base self).

(** The checks of [RawDiscretization.__init__] on an optional operator:
    [restr] is checked against (uspace, dspace), [ext] against
    (dspace, uspace). *)
Definition check_restr (uspace dspace : space) (order : string)
    (restr : option operator) : result unit :=
  match restr with
  | None => Ok tt
  | Some r =>
      if negb (isinstance (op_mro r) "Operator") then
        Raise (TypeError "restriction operator {} not an `Operator` instance.")
      else if negb (bool_decide (op_domain r = uspace)) then
        Raise (ValueError "restriction operator domain {} not equal to the undiscretized space {}.")
      else if negb (bool_decide (op_range r = dspace)) then
        Raise (ValueError "restriction operator range {} not equal tothe data space {}.")
      else match op_order r with
           | Some o =>
               if negb (bool_decide (o = order)) then
                 Raise (ValueError "ordering {!r} of the restriction operator differs from given ordering {!r}.")
               else Ok tt
           | None => Ok tt
           end
  end.

Definition check_ext (uspace dspace : space) (order : string)
    (ext : option operator) : result unit :=
  match ext with
  | None => Ok tt
  | Some e =>
      if negb (isinstance (op_mro e) "Operator") then
        Raise (TypeError "extension operator {} not an `Operator` instance.")
      else if negb (bool_decide (op_domain e = dspace)) then
        Raise (ValueError "extension operator domain {} not equal tothe data space {}.")
      else if negb (bool_decide (op_range e = uspace)) then
        Raise (ValueError "extension operator range {} not equal tothe undiscretized space {}.")
      else match op_order e with
           | Some o =>
               if negb (bool_decide (o = order)) then
                 Raise (ValueError "ordering {!r} of the extension operator differs from given ordering {!r}.")
               else Ok tt
           | None => Ok tt
           end
  end.

(** [RawDiscretization.__init__(self, uspace, dspace, restr, ext, **kwargs)];
    [cls] is the class of the instance being initialised. *)
Definition RawDiscretization__init__ (cls : list string)
    (uspace dspace : space) (restr ext : option operator)
    (kwargs : gmap string string) : result discretization :=
  if negb (isinstance (sp_mro uspace) "Set") then
    Raise (TypeError "undiscretized space {} not a `Set` instance.")
  else if negb (isinstance (sp_mro dspace) "NtuplesBase") then
    Raise (TypeError "data space {} not an `NtuplesBase` instance.")
  else
    let order := default "C" (kwargs !! "order") in
    if negb (str_in order ["C"; "F"]) then
      Raise (ValueError "order {!r} not understood.")
    else
      _ ← check_restr uspace dspace order restr;
      _ ← check_ext uspace dspace order ext;
      let base := NtuplesBase__init__ (sp_dim dspace) (sp_dtype dspace) in
      Ok (MkDiscr cls base uspace dspace restr ext order).

(** [uspace.field] / [dspace.field]: attribute access. *)
Definition get_field (s : space) : result string :=
  match sp_field s with
  | Some f => Ok f
  | None => Raise (AttributeError "field")
  end.

(** [Discretization.__init__]. *)
Definition Discretization__init__ (cls : list string)
    (uspace dspace : space) (restr ext : option operator)
    (kwargs : gmap string string) : result discretization :=
  self ← RawDiscretization__init__ cls uspace dspace restr ext kwargs;
  let self :=
    MkDiscr (d_mro self) (FnBase__init__ (sp_dim dspace) (sp_dtype dspace))
            (_uspace self) (_dspace self) (_restriction self)
            (_extension self) (_order self) in
  if negb (isinstance (sp_mro uspace) "LinearSpace") then
    Raise (TypeError "undiscretized space {} not a `LinearSpace` instance.")
  else if negb (isinstance (sp_mro dspace) "FnBase") then
    Raise (TypeError "data space {} not an `FnBase` instance.")
  else
    uf ← get_field uspace;
    df ← get_field dspace;
    if negb (bool_decide (uf = df)) then
      Raise (ValueError "fields {} and {} of the undiscretized and data spaces, resp., are not equal.")
    else
      match restr with
      | Some r =>
          if negb (isinstance (op_mro r) "LinearOperator") then
            Raise (TypeError "restriction operator {} is not a `LinearOperator` instance.")
          else Ok tt
      | None => Ok tt
      end ≫= λ _,
      match ext with
      | Some e =>
          if negb (isinstance (op_mro e) "LinearOperator") then
            Raise (TypeError "extension operator {} is not a `LinearOperator` instance.")
          else Ok tt
      | None => Ok tt
      end ≫= λ _,
      Ok self.

(** The discretization at [self] with another undiscretized space. *)
Definition with_uspace (d : discretization) (us : space) : discretization :=
  MkDiscr (d_mro d) (d_base d) us (_dspace d) (_restriction d)
          (_extension d) (_order d).

(** Properties. *)
Definition uspace (self : discretization) : space := _uspace self.
Definition dspace (self : discretization) : space := _dspace self.
Definition order (self : discretization) : string := _order self.

Definition restriction (self : discretization) : result operator :=
  match _restriction self with
  | Some r => Ok r
  | None => Raise (NotImplementedError "no restriction operator provided.")
  end.

Definition extension (self : discretization) : result operator :=
  match _extension self with
  | Some e => Ok e
  | None => Raise (NotImplementedError "no extension operator provided.")
  end.

(** Modelled from the spec: [NtuplesBase.equals], reached through
    [super().equals(other)], is missing from the sources; by the spec two
    discretizations must have their "dimension/dtype match". *)
Definition NtuplesBase_equals (self other : discretization) : bool :=
  bool_decide (dim other = dim self) &&
  bool_decide (dtype other = dtype self).

(** [RawDiscretization.equals]: a chain of short-circuiting [and]s; the
    operands [other.restriction], [self.restriction], ... are property
    reads and may raise. *)
Definition equals (self other : discretization) : result bool :=
  if negb (NtuplesBase_equals self other) then Ok false
  else if negb (bool_decide (uspace other = uspace self)) then Ok false
  else if negb (bool_decide (dspace other = dspace self)) then Ok false
  else
    ro ← restriction other;
    rs ← restriction self;
    if negb (bool_decide (ro = rs)) then Ok false
    else
      eo ← extension other;
      es ← extension self;
      Ok (bool_decide (eo = es)).

(** [RawDiscretization.equals] once more, over the comparisons it
    delegates to and that are not in this module: [super().equals(other)]
    of [NtuplesBase], the [==] of spaces and the [==] of operators, each
    with the operands in the order of the source. What is left is the
    code of the method itself: the order of the short-circuiting [and]s
    and the property reads that may raise. *)
Section RawDiscretizationEquals.

Variable super_equals : discretization → discretization → bool.
Variable space_eq : space → space → bool.
Variable operator_eq : operator → operator → bool.

Definition RawDiscretization_equals (self other : discretization)
  : result bool :=
  if negb (super_equals self other) then Ok false
  else if negb (space_eq (uspace other) (uspace self)) then Ok false
  else if negb (space_eq (dspace other) (dspace self)) then Ok false
  else
    ro ← restriction other;
    rs ← restriction self;
    if negb (operator_eq ro rs) then Ok false
    else
      eo ← extension other;
      es ← extension self;
      Ok (operator_eq eo es).

End RawDiscretizationEquals.

(** *** Objects, heap and the state monad

    Data-space elements (n-tuples), discretizations and their [Vector]
    wrappers are Python objects with identity: they live in a heap and
    are referred to by location. *)

Abbreviation loc := nat.

Inductive value : Type :=
| VNone
| VRef (l : loc)                      (* an object of the heap *)
| VAbs (sp : space) (name : string)   (* an element of an abstract set *)
| VNum (z : Z)
| VSeq (xs : list value).

Inductive obj : Type :=
| ODiscr (d : discretization)
| ONtuple (mro : list string) (sp : space) (data : list Z)
| OVector (cls : string) (space : loc) (ntuple : loc).

Abbreviation heap := (list obj).

Abbreviation M := (Py.M heap).

Definition alloc (o : obj) : M loc := λ h, Ok (length h, h ++ [o]).

Definition get_discr (l : loc) : M discretization := λ h,
  match h !! l with
  | Some (ODiscr d) => Ok (d, h)
  | _ => Raise (AttributeError "dspace")
  end.

(** [v.ntuple] together with [type(v)] and [v.space]. *)
Definition get_vector (l : loc) : M (string * loc * loc) := λ h,
  match h !! l with
  | Some (OVector cls sl nl) => Ok (cls, sl, nl, h)
  | _ => Raise (AttributeError "ntuple")
  end.

Definition get_ntuple (l : loc) : M (list string * space * list Z) := λ h,
  match h !! l with
  | Some (ONtuple mro sp data) => Ok (mro, sp, data, h)
  | _ => Raise (AttributeError "data")
  end.

Definition set_data (l : loc) (data : list Z) : M unit := λ h,
  match h !! l with
  | Some (ONtuple mro sp _) => Ok (tt, <[l := ONtuple mro sp data]> h)
  | _ => Raise (AttributeError "data")
  end.

(** *** The data-space family (n-tuples) *)

(** Class of the elements created by a data space. *)
Definition Vector_mro (sp : space) : list string :=
  sp_Vector sp :: sp_mro_Vector sp.

(** Modelled from the spec: [dspace.element()], [dspace.zero()] and
    [dspace.element(arr)] are missing from the sources.  The data space
    is "a finite n-tuple container type exposing dimension": without
    input it hands out a fresh zero/default element of [dim] entries,
    from a flat array a fresh element holding its entries, failing when
    the size is not [dim]. *)
Definition dspace_zero (sp : space) : M loc :=
  alloc (ONtuple (Vector_mro sp) sp (replicate (sp_dim sp) 0%Z)).

Definition dspace_element (sp : space) (arr : option (list Z)) : M loc :=
  match arr with
  | None => dspace_zero sp
  | Some data =>
      if bool_decide (length data = sp_dim sp) then
        alloc (ONtuple (Vector_mro sp) sp data)
      else raise (ValueError "input shape not compatible with the data space")
  end.

(** Modelled from the spec: [ntuple.copy()] is missing from the sources;
    "copy returns a new element via a full data copy". *)
Definition ntuple_copy (l : loc) : M loc :=
  '(mro, sp, data) ← get_ntuple l;
  alloc (ONtuple mro sp data).

(** Modelled from the spec: [ntuple.equals(other)] is missing from the
    sources; element equality requires "equal underlying ntuples": the
    same data space and the same entries. *)
Definition ntuple_equals (l : loc) (other : loc) : M bool :=
  '(_, sp, data) ← get_ntuple l;
  '(_, sp', data') ← get_ntuple other;
  mret (bool_decide (sp = sp') && bool_decide (data = data')).

Definition ntuple_asarray (l : loc) : M (list Z) :=
  '(_, _, data) ← get_ntuple l;
  mret data.

(** Indices of [__getitem__] / [__setitem__]: an [int] or a [slice]. *)
Inductive index : Type :=
| Idx (i : nat)
| Slice (start stop : nat).

Definition slice_len (n start stop : nat) : nat :=
  Nat.min stop n - Nat.min start n.

(** [data[start:stop] = vals] on a list of entries. *)
Definition write_slice (data : list Z) (start : nat) (vals : list Z)
  : list Z :=
  take start data ++ vals ++ drop (start + length vals) data.

(** Modelled from the spec: the indexed access of a data-space element
    is missing from the sources ("indexed get/set forwards to the
    underlying data-space element").  An [int] reads or replaces one
    entry and fails out of range; a [slice] reads or replaces a range,
    the assigned values having the size of the range or size one. *)
Definition ntuple_getitem (l : loc) (ix : index) : M (list Z) :=
  '(_, _, data) ← get_ntuple l;
  match ix with
  | Idx i =>
      match data !! i with
      | Some z => mret [z]
      | None => raise (IndexError "index out of range")
      end
  | Slice a b => mret (take (slice_len (length data) a b) (drop a data))
  end.

Definition ntuple_setitem_data (l : loc) (ix : index) (vals : list Z)
  : M unit :=
  '(_, _, data) ← get_ntuple l;
  match ix with
  | Idx i =>
      match vals with
      | [z] =>
          if bool_decide (i < length data) then set_data l (<[i := z]> data)
          else raise (IndexError "index out of range")
      | _ => raise (ValueError "setting an entry with a sequence")
      end
  | Slice a b =>
      let n := slice_len (length data) a b in
      if bool_decide (length vals = n) then
        set_data l (write_slice data (Nat.min a (length data)) vals)
      else
        match vals with
        | [z] => set_data l (write_slice data (Nat.min a (length data))
                                         (replicate n z))
        | _ => raise (ValueError "could not broadcast values to the slice")
        end
  end.

Fixpoint nums (xs : list value) : option (list Z) :=
  match xs with
  | [] => Some []
  | VNum z :: xs' => (z ::.) <$> nums xs'
  | _ => None
  end.

(** The values accepted by the data-space element's [__setitem__]:
    a scalar, a flat sequence of scalars, or another n-tuple. *)
Definition ntuple_setitem (l : loc) (ix : index) (values : value)
  : M unit :=
  match values with
  | VNum z => ntuple_setitem_data l ix [z]
  | VSeq xs =>
      match nums xs with
      | Some vals => ntuple_setitem_data l ix vals
      | None => raise (TypeError "values not understood")
      end
  | VRef l' =>
      '(_, _, vals) ← get_ntuple l';
      ntuple_setitem_data l ix vals
  | _ => raise (TypeError "values not understood")
  end.

(** *** Interfaces consumed from outside the module

    Membership in a space, the element constructor of the abstract
    space, the action of an operator, numpy's array coercion and the
    numerical kernels of the data space are not part of the module.  They
    read the heap but do not own any object of it. *)

Record externals : Type := Externals {
  (* [inp in space] *)
  contains : space → heap → value → bool;
  (* [uspace.element(inp)] *)
  set_element : space → heap → value → result value;
  (* the entries of [op(x)] *)
  op_apply : operator → heap → value → result (list Z);
  (* [np.asarray(inp, dtype=dtype).reshape(-1, order=order)] *)
  np_asarray_flat : heap → value → string → string → result (list Z);
  (* kernels behind [dspace._lincomb], [_dist], [_norm], [_inner],
     [_multiply] *)
  k_lincomb : space → Z → list Z → Z → list Z → list Z;
  k_dist : space → list Z → list Z → Z;
  k_norm : space → list Z → Z;
  k_inner : space → list Z → list Z → Z;
  k_multiply : space → list Z → list Z → list Z
}.

(** The classes of the two wrapper types. *)
Definition Vector_bases (cls : string) : list string :=
  if bool_decide (cls = "Discretization.Vector") then
    ["Discretization.Vector"; "RawDiscretization.Vector"; "FnBase.Vector";
     "NtuplesBase.Vector"]
  else [cls; "NtuplesBase.Vector"].

Definition obj_mro (o : obj) : list string :=
  match o with
  | ODiscr d => d_mro d
  | ONtuple mro _ _ => mro
  | OVector cls _ _ => Vector_bases cls
  end.

Definition isinstance_value (h : heap) (v : value) (cls : string) : bool :=
  match v with
  | VRef l =>
      match h !! l with
      | Some o => isinstance (obj_mro o) cls
      | None => false
      end
  | _ => false
  end.

(** [self.Vector]: the nested class found on the class of [self]. *)
Definition Vector_class (d : discretization) : string :=
  if isinstance (d_mro d) "Discretization" then "Discretization.Vector"
  else "RawDiscretization.Vector".

Section Methods.

Variable E : externals.

(** Modelled from the spec: [Operator.__call__] is missing from the
    sources; a restriction operator maps "AbstractSpace → DataSpace", so
    a call returns a new element of the operator's range. *)
Definition op_call (op : operator) (x : value) : M value :=
  h ← get_state;
  data ← lift (op_apply E op h x);
  l ← alloc (ONtuple (Vector_mro (op_range op)) (op_range op) data);
  mret (VRef l).

(** [self.Vector(space, ntuple)]: the checks of
    [Discretization.Vector.__init__] (for that class) and of
    [RawDiscretization.Vector.__init__], then the assignment of
    [_ntuple]. *)
Definition Vector__init__ (cls : string) (space : loc) (ntuple : value)
  : M loc :=
  h ← get_state;
  let mro := from_option obj_mro [] (h !! space) in
  if bool_decide (cls = "Discretization.Vector") &&
     negb (isinstance mro "Discretization") then
    raise (TypeError "space {!r} not a `Discretization` instance.")
  else if negb (isinstance mro "RawDiscretization") then
    raise (TypeError "space {!r} not a `RawDiscretization` instance.")
  else
    d ← get_discr space;
    if negb (isinstance_value h ntuple (sp_Vector (dspace d))) then
      raise (TypeError "n-tuple {!r} not an instance of `{}.Vector`.")
    else
      match ntuple with
      | VRef nl => alloc (OVector cls space nl)
      | _ => raise (TypeError "n-tuple {!r} not an instance of `{}.Vector`.")
      end.

(** [RawDiscretization.element(self, inp=None)]. *)
Definition element (self : loc) (inp : value) : M loc :=
  d ← get_discr self;
  match inp with
  | VNone =>
      nt ← dspace_element (dspace d) None;
      Vector__init__ (Vector_class d) self (VRef nt)
  | _ =>
      h ← get_state;
      if contains E (dspace d) h inp then
        Vector__init__ (Vector_class d) self inp
      else if contains E (uspace d) h inp then
        restr ← lift (restriction d);
        u ← lift (set_element E (uspace d) h inp);
        y ← op_call restr u;
        Vector__init__ (Vector_class d) self y
      else
        arr ← lift (np_asarray_flat E h inp (sp_dtype (dspace d)) (order d));
        nt ← dspace_element (dspace d) (Some arr);
        Vector__init__ (Vector_class d) self (VRef nt)
  end.

(** [RawDiscretization.Vector]: [copy], [asarray], [equals],
    [__getitem__], [__setitem__]. *)
Definition Vector_copy (self : loc) : M loc :=
  '(_, space, nt) ← get_vector self;
  c ← ntuple_copy nt;
  element space (VRef c).

Definition Vector_asarray (self : loc) : M (list Z) :=
  '(_, _, nt) ← get_vector self;
  ntuple_asarray nt.

Definition Vector_equals (self : loc) (other : value) : M bool :=
  '(cls, _, nt) ← get_vector self;
  h ← get_state;
  match other with
  | VRef ol =>
      match h !! ol with
      | Some (OVector cls' _ nt') =>
          if bool_decide (cls' = cls) then ntuple_equals nt nt'
          else mret false
      | _ => mret false
      end
  | _ => mret false
  end.

Definition Vector__getitem__ (self : loc) (indices : index) : M (list Z) :=
  '(_, _, nt) ← get_vector self;
  ntuple_getitem nt indices.

Definition Vector__setitem__ (self : loc) (indices : index)
    (values : value) : M unit :=
  h ← get_state;
  if isinstance_value h values "RawDiscretization.Vector" then
    '(_, _, nt) ← get_vector self;
    match values with
    | VRef vl =>
        '(_, _, vnt) ← get_vector vl;
        ntuple_setitem nt indices (VRef vnt)
    | _ => raise (AttributeError "ntuple")
    end
  else
    '(_, _, nt) ← get_vector self;
    ntuple_setitem nt indices values.

(** Modelled from the spec: the linear-space primitives of the data
    space are missing from the sources.  [_lincomb] and [_multiply]
    write the kernel's result into their first argument; [_dist],
    [_norm] and [_inner] return the kernel's value. *)
Definition dspace__lincomb (sp : space) (z : loc) (a : Z) (x : loc)
    (b : Z) (y : loc) : M unit :=
  xd ← ntuple_asarray x;
  yd ← ntuple_asarray y;
  set_data z (k_lincomb E sp a xd b yd).

Definition dspace__multiply (sp : space) (z x y : loc) : M unit :=
  xd ← ntuple_asarray x;
  yd ← ntuple_asarray y;
  set_data z (k_multiply E sp xd yd).

Definition dspace__dist (sp : space) (x y : loc) : M Z :=
  xd ← ntuple_asarray x;
  yd ← ntuple_asarray y;
  mret (k_dist E sp xd yd).

Definition dspace__norm (sp : space) (x : loc) : M Z :=
  xd ← ntuple_asarray x;
  mret (k_norm E sp xd).

Definition dspace__inner (sp : space) (x y : loc) : M Z :=
  xd ← ntuple_asarray x;
  yd ← ntuple_asarray y;
  mret (k_inner E sp xd yd).

(** [Discretization]: pass-through attributes of the wrapped [dspace]. *)
Definition zero (self : loc) : M loc :=
  d ← get_discr self;
  nt ← dspace_zero (dspace d);
  Vector__init__ (Vector_class d) self (VRef nt).

Definition _lincomb (self : loc) (z : loc) (a : Z) (x : loc) (b : Z)
    (y : loc) : M unit :=
  d ← get_discr self;
  '(_, _, znt) ← get_vector z;
  '(_, _, xnt) ← get_vector x;
  '(_, _, ynt) ← get_vector y;
  dspace__lincomb (dspace d) znt a xnt b ynt.

Definition _dist (self : loc) (x y : loc) : M Z :=
  d ← get_discr self;
  '(_, _, xnt) ← get_vector x;
  '(_, _, ynt) ← get_vector y;
  dspace__dist (dspace d) xnt ynt.

Definition _norm (self : loc) (x : loc) : M Z :=
  d ← get_discr self;
  '(_, _, xnt) ← get_vector x;
  dspace__norm (dspace d) xnt.

Definition _inner (self : loc) (x y : loc) : M Z :=
  d ← get_discr self;
  '(_, _, xnt) ← get_vector x;
  '(_, _, ynt) ← get_vector y;
  dspace__inner (dspace d) xnt ynt.

Definition _multiply (self : loc) (z x y : loc) : M unit :=
  d ← get_discr self;
  '(_, _, znt) ← get_vector z;
  '(_, _, xnt) ← get_vector x;
  '(_, _, ynt) ← get_vector y;
  dspace__multiply (dspace d) znt xnt ynt.

End Methods.

(** *** Calls on the objects of a heap

    A program using the module constructs discretizations and calls
    their methods and those of their elements.  [step E h h'] is one such
    construction or completed call, taking the heap [h] to [h']. *)

Definition discr_at (h : heap) (l : loc) : option discretization :=
  match h !! l with
  | Some (ODiscr d) => Some d
  | _ => None
  end.

Inductive step (E : externals) : heap → heap → Prop :=
| step_RawDiscretization cls us ds restr ext kwargs d h :
    RawDiscretization__init__ cls us ds restr ext kwargs = Ok d →
    step E h (h ++ [ODiscr d])
| step_Discretization cls us ds restr ext kwargs d h :
    Discretization__init__ cls us ds restr ext kwargs = Ok d →
    step E h (h ++ [ODiscr d])
| step_element self inp v h h' :
    element E self inp h = Ok (v, h') → step E h h'
| step_copy x v h h' :
    Vector_copy E x h = Ok (v, h') → step E h h'
| step_asarray x a h h' :
    Vector_asarray x h = Ok (a, h') → step E h h'
| step_equals x other b h h' :
    Vector_equals x other h = Ok (b, h') → step E h h'
| step_getitem x ix a h h' :
    Vector__getitem__ x ix h = Ok (a, h') → step E h h'
| step_setitem x ix v h h' :
    Vector__setitem__ x ix v h = Ok (tt, h') → step E h h'
| step_zero self v h h' :
    zero self h = Ok (v, h') → step E h h'
| step_lincomb self z a x b y h h' :
    _lincomb E self z a x b y h = Ok (tt, h') → step E h h'
| step_dist self x y r h h' :
    _dist E self x y h = Ok (r, h') → step E h h'
| step_norm self x r h h' :
    _norm E self x h = Ok (r, h') → step E h h'
| step_inner self x y r h h' :
    _inner E self x y h = Ok (r, h') → step E h h'
| step_multiply self z x y h h' :
    _multiply E self z x y h = Ok (tt, h') → step E h h'.

(** [same_discrs m]: a completed run of [m] creates no discretization
    and leaves the existing ones as they are. *)

Definition same_discrs {A} (m : M A) : Prop :=
  ∀ h a h', m h = Ok (a, h') → ∀ l, discr_at h' l = discr_at h l.

(** *** Vocabulary for the properties of the constructors and wrappers *)

(** The discretization [d] with another axis ordering. *)
Definition with_order (d : discretization) (o : string) : discretization :=
  MkDiscr (d_mro d) (d_base d) (_uspace d) (_dspace d) (_restriction d)
          (_extension d) o.

(** What the constructor demands of an operator from [dom] to [ran]: it
    is an [Operator], its domain and range are the two spaces, and an
    [order] attribute, when it has one, is the given ordering. *)
Definition compatible (op : operator) (dom ran : space) (order : string)
  : Prop :=
  isinstance (op_mro op) "Operator" = true
  ∧ op_domain op = dom ∧ op_range op = ran
  ∧ ∀ o, op_order op = Some o → o = order.

(** A wrapper object is well formed in a heap: its space is a
    discretization of the wrapper's family and its n-tuple is an object
    whose class derives from the [Vector] class of the data space. *)
Definition wf_vector (h : heap) (cls : string) (space ntuple : loc) : Prop :=
  ∃ d o,
    h !! space = Some (ODiscr d)
    ∧ isinstance (d_mro d) "RawDiscretization" = true
    ∧ (cls = "Discretization.Vector" →
       isinstance (d_mro d) "Discretization" = true)
    ∧ h !! ntuple = Some o
    ∧ isinstance (obj_mro o) (sp_Vector (dspace d)) = true.

Definition wf_heap (h : heap) : Prop :=
  ∀ x cls space ntuple,
    h !! x = Some (OVector cls space ntuple) → wf_vector h cls space ntuple.

(** How a call may change a heap: an object keeps its location, its
    class and, unless it is an n-tuple, its whole content; a wrapper that
    is new is well formed. *)
Definition keeps (o o' : obj) : Prop :=
  match o with
  | ONtuple mro sp _ => ∃ data, o' = ONtuple mro sp data
  | _ => o' = o
  end.

Definition stable (h h' : heap) : Prop :=
  ∀ l o, h !! l = Some o → ∃ o', h' !! l = Some o' ∧ keeps o o'.

Definition ext_ok (h h' : heap) : Prop :=
  stable h h'
  ∧ ∀ x cls space ntuple,
      h' !! x = Some (OVector cls space ntuple) →
      h !! x = Some (OVector cls space ntuple)
      ∨ wf_vector h' cls space ntuple.

Definition tidy {A} (m : M A) : Prop :=
  ∀ h a h', m h = Ok (a, h') → ext_ok h h'.

(** *** dspace_type *)

Inductive space_type : Type :=
| Rn | Cn | Ntuples | CudaRn | CudaNtuples.

Section DspaceType.

(** Module-level flag set by the guarded import of [odl.space.cuda]. *)
Variable CUDA_AVAILABLE : bool.

(** The module-level names [CudaRn], [CudaCn], [CudaNtuples]: bound to
    the classes when the import succeeds, to [None] otherwise; [CudaCn]
    is [None] in both cases. *)
Definition CudaRn_name : option space_type :=
  if CUDA_AVAILABLE then Some CudaRn else None.
Definition CudaCn_name : option space_type := None.
Definition CudaNtuples_name : option space_type :=
  if CUDA_AVAILABLE then Some CudaNtuples else None.

(** Keys of the inner dictionaries are the classes [RealNumbers],
    [ComplexNumbers] and [None]. *)
Definition spacetype_map
  : gmap string (gmap (option string) (option space_type)) :=
  {[ "numpy" := {[ Some "RealNumbers" := Some Rn;
                   Some "ComplexNumbers" := Some Cn;
                   None := Some Ntuples ]};
     "cuda" := {[ Some "RealNumbers" := CudaRn_name;
                  Some "ComplexNumbers" := CudaCn_name;
                  None := CudaNtuples_name ]} ]}.

Definition field_type (sp : space) : option string := sp_field sp.

Definition dspace_type (sp : space) (impl : string) : result space_type :=
  if negb (str_in impl ["numpy"; "cuda"]) then
    Raise (ValueError "implementation type {} not understood.")
  else if bool_decide (impl = "cuda") && negb CUDA_AVAILABLE then
    Raise (ValueError "CUDA implementation not available.")
  else
    match spacetype_map !! impl with
    | None => Raise (KeyError "impl")
    | Some row =>
        match row !! field_type sp with
        | None => Raise (KeyError "field_type")
        | Some None =>
            Raise (NotImplementedError
                     "no corresponding data space available for space {!r} and implementation {!r}.")
        | Some (Some stype) => Ok stype
        end
    end.

End DspaceType.

(** The field classes of the resolver's table and the key each one has in
    the inner dictionaries. *)
Inductive field_class : Type := real | complex | no_field.

Definition field_key (fc : field_class) : option string :=
  match fc with
  | real => Some "RealNumbers"
  | complex => Some "ComplexNumbers"
  | no_field => None
  end.

End Discr.

(** ** odl/discr/default.py *)

Module Default.
Import Py Discr.

Definition _supported_interp : list string := ["nearest"].

(** The class of a [DiscreteL2] instance. *)
Definition DiscreteL2_mro : list string :=
  ["DiscreteL2"; "Discretization"; "RawDiscretization"; "FnBase";
   "NtuplesBase"; "LinearSpace"; "Set"].

Section DiscreteL2.

(** The sampling grid and the two operator constructors of
    [odl.discr.operators] are consumed as they are: a constructor is
    given the space, the grid, the data space and the ordering, and
    returns an operator or raises. *)
Variable grid : Type.
Variable GridCollocation : space → grid → space → string → result operator.
Variable NearestInterpolation :
  space → grid → space → string → result operator.

(** [DiscreteL2.__init__(self, l2space, grid, dspace, interp='nearest',
    **kwargs)]; [interp] is the value of [str(interp)]. *)
Definition DiscreteL2__init__ (l2space : space) (g : grid) (dspace : space)
    (interp : string) (kwargs : gmap string string)
  : result discretization :=
  if negb (isinstance (sp_mro l2space) "L2") then
    Raise (TypeError "{} is not an `L2` type space.")
  else if negb (str_in interp _supported_interp) then
    Raise (ValueError "{} is not among the supported interpolationtypes {}.")
  else
    let order := default "C" (kwargs !! "order") in
    restriction ← GridCollocation l2space g dspace order;
    extension ←
      (if bool_decide (interp = "nearest") then
         NearestInterpolation l2space g dspace order
       else Raise (NotImplementedError ""));
    Discretization__init__ DiscreteL2_mro l2space dspace
                           (Some restriction) (Some extension) ∅.

End DiscreteL2.

Section Uniform.

Variable grid : Type.
Variable GridCollocation : space → grid → space → string → result operator.
Variable NearestInterpolation :
  space → grid → space → string → result operator.

(** Module-level flag of [odl.discr.discretization]. *)
Variable CUDA_AVAILABLE : bool.

(** Consumed from outside the module: the classes of [l2space.domain],
    [l2space.domain.uniform_sampling(nsamples, as_midp=True)],
    [grid.ntotal], and the call [ds_type(ntotal)] or
    [ds_type(ntotal, dtype=dtype)] of the selected data-space class. *)
Variable domain_mro : space → list string.
Variable uniform_sampling : space → list nat → result grid.
Variable ntotal : grid → nat.
Variable ds_type_call : space_type → nat → option string → result space.

(** [l2_uniform_discretization(l2space, nsamples, interp='nearest',
    impl='numpy', **kwargs)]. *)
Definition l2_uniform_discretization (l2space : space) (nsamples : list nat)
    (interp impl : string) (kwargs : gmap string string)
  : result discretization :=
  if negb (isinstance (sp_mro l2space) "L2") then
    Raise (TypeError "space {} is not an L2 instance.")
  else if negb (isinstance (domain_mro l2space) "IntervalProd") then
    Raise (TypeError
             "domain {} of the L2 space is not an `IntervalProd` instance.")
  else
    ds_type ← dspace_type CUDA_AVAILABLE l2space impl;
    let dtype := kwargs !! "dtype" in
    let kwargs := delete "dtype" kwargs in
    g ← uniform_sampling l2space nsamples;
    dspace ← ds_type_call ds_type (ntotal g) dtype;
    DiscreteL2__init__ grid GridCollocation NearestInterpolation
                       l2space g dspace interp kwargs.

End Uniform.

End Default.

(** ** odl/util/ufuncs.py *)

Module Ufuncs.
Import Py.

Definition RAW_UFUNCS : list string :=
  ["absolute"; "add"; "arccos"; "arccosh"; "arcsin"; "arcsinh";
   "arctan"; "arctan2"; "arctanh"; "bitwise_and"; "bitwise_or";
   "bitwise_xor"; "ceil"; "conj"; "copysign"; "cos"; "cosh";
   "deg2rad"; "divide"; "equal"; "exp"; "exp2"; "expm1"; "floor";
   "floor_divide"; "fmax"; "fmin"; "fmod"; "greater";
   "greater_equal"; "hypot"; "invert"; "isfinite"; "isinf"; "isnan";
   "left_shift"; "less"; "less_equal"; "log"; "log10"; "log1p";
   "log2"; "logaddexp"; "logaddexp2"; "logical_and"; "logical_not";
   "logical_or"; "logical_xor"; "maximum"; "minimum"; "mod"; "modf";
   "multiply"; "negative"; "not_equal"; "power";
   "rad2deg"; "reciprocal"; "remainder"; "right_shift"; "rint";
   "sign"; "signbit"; "sin"; "sinh"; "sqrt"; "square"; "subtract";
   "tan"; "tanh"; "true_divide"; "trunc"].

(** [ufunc.nin] and [ufunc.nout] are read from numpy when the module is
    imported: of the names above, numpy gives two inputs to the
    arithmetic, comparison, bitwise and logical binary operations, and
    two outputs to [modf] only. *)
Definition np_two_inputs : list string :=
  ["add"; "arctan2"; "bitwise_and"; "bitwise_or"; "bitwise_xor";
   "copysign"; "divide"; "equal"; "floor_divide"; "fmax"; "fmin"; "fmod";
   "greater"; "greater_equal"; "hypot"; "left_shift"; "less";
   "less_equal"; "logaddexp"; "logaddexp2"; "logical_and"; "logical_or";
   "logical_xor"; "maximum"; "minimum"; "mod"; "multiply"; "not_equal";
   "power"; "remainder"; "right_shift"; "subtract"; "true_divide"].

Definition np_nin (name : string) : nat :=
  if str_in name np_two_inputs then 2 else 1.

Definition np_nout (name : string) : nat :=
  if bool_decide (name = "modf") then 2 else 1.

(** The catalog: [(name, n_in, n_out)] for every raw name (the fourth
    component, the documentation string, plays no role in dispatch). *)
Definition UFUNCS : list (string * nat * nat) :=
  (λ name, (name, np_nin name, np_nout name)) <$> RAW_UFUNCS.

(** The three shapes of the catalog: every entry has one input and one
    output, two inputs and one output, or is [modf] with one input and
    two outputs. *)
Definition catalog_shape (e : string * nat * nat) : bool :=
  match e with
  | (_, 1, 1) | (_, 2, 1) => true
  | (n, 1, 2) => bool_decide (n = "modf")
  | _ => false
  end.

(** *** Values *)

Inductive scalar : Type :=
| SNone
| SBool (b : bool)
| SInt (z : Z)
| SStr (s : string)
| SInts (zs : list Z).

(** A numpy array: its shape and the storage it refers to. *)
Record array : Type := Array {
  a_shape : list nat;
  a_store : nat
}.

Inductive weighting : Type :=
| ArrayWeighting (a : array) (exponent : scalar)
| NoWeighting (exponent : scalar)
| ConstWeighting (c : scalar) (exponent : scalar)
| CustomWeighting (name : string).

(** A tensor space: its concrete class, and the attributes the module
    reads.  [ts_exponent = SNone] and [ts_weighting = None] stand for an
    attribute that is absent or [None]. *)
Record tensor_space : Type := TensorSpace {
  ts_type : string;
  ts_shape : list nat;
  ts_dtype : scalar;
  ts_order : string;
  ts_exponent : scalar;
  ts_weighting : option weighting
}.

Inductive value : Type :=
| VScalar (s : scalar)
| VArr (a : array)
| VWeighting (w : weighting)
| VTensor (sp : tensor_space) (data : array)   (* base-tensor element *)
| VDiscr (space : string) (tensor : value)     (* discretized-function element *)
| VProd (space : string) (parts : list value)  (* product-space element *)
| VTuple (xs : list value)
| VList (xs : list value).

Abbreviation VNone := (VScalar SNone).

Definition is_None (v : value) : bool :=
  match v with VNone => true | _ => false end.

(** Attribute reads and iteration. *)
Definition attr_tensor (v : value) : result value :=
  match v with
  | VDiscr _ t => Ok t
  | _ => Raise (AttributeError "tensor")
  end.

Definition attr_space (v : value) : result string :=
  match v with
  | VDiscr sp _ | VProd sp _ => Ok sp
  | _ => Raise (AttributeError "space")
  end.

Definition iter (v : value) : result (list value) :=
  match v with
  | VProd _ xs | VTuple xs | VList xs => Ok xs
  | _ => Raise (TypeError "object is not iterable")
  end.

(** [zip] stops at the shortest operand. *)
Fixpoint zip3 {A B C} (xs : list A) (ys : list B) (zs : list C)
  : list (A * B * C) :=
  match xs, ys, zs with
  | x :: xs', y :: ys', z :: zs' => (x, y, z) :: zip3 xs' ys' zs'
  | _, _, _ => []
  end.

(** *** Calls

    A call passes positional and keyword arguments; the callee binds
    them to its parameters [(name, default)]; what is left of the
    keywords goes to [**kwargs] when the callee has one. *)
Fixpoint bind_params (params : list (string * option value))
    (args : list value) (kwargs : gmap string value)
  : result (list value * gmap string value) :=
  match params with
  | [] =>
      match args with
      | [] => Ok ([], kwargs)
      | _ => Raise (TypeError "too many positional arguments")
      end
  | (p, dflt) :: ps =>
      match args with
      | a :: args' =>
          match kwargs !! p with
          | Some _ => Raise (TypeError "multiple values for argument")
          | None =>
              '(vs, kw) ← bind_params ps args' kwargs;
              Ok (a :: vs, kw)
          end
      | [] =>
          match kwargs !! p with
          | Some v =>
              '(vs, kw) ← bind_params ps [] (delete p kwargs);
              Ok (v :: vs, kw)
          | None =>
              match dflt with
              | Some v =>
                  '(vs, kw) ← bind_params ps [] kwargs;
                  Ok (v :: vs, kw)
              | None => Raise (TypeError "missing required argument")
              end
          end
      end
  end.

(** Binding for a callee without [**kwargs]. *)
Definition bind_exact (params : list (string * option value))
    (args : list value) (kwargs : gmap string value)
  : result (list value) :=
  '(vs, kw) ← bind_params params args kwargs;
  if bool_decide (kw = ∅) then Ok vs
  else Raise (TypeError "unexpected keyword argument").

(** *** The wrapper generators *)

Section Wrappers.

(** The state of the array backend. *)
Variable W : Type.

Abbreviation M := (Py.M W).

(** Consumed from numpy: whether the module [np] has an attribute of
    this name, that is, whether [getattr(np, name)] returns. *)
Variable np_hasattr : string → bool.

(** A bound method: it is called with positional and keyword arguments. *)
Definition callable : Type := list value → gmap string value → M value.

(** Consumed from outside the module:
    - [getattr(x.ufuncs, name)], the bound operation [name] on the own
      facade of an inner object [x] (a backing tensor, a component);
    - [space.element()] and [space.element(inp)] of a discretized or
      product space;
    - [x in space];
    - [elem.__array_ufunc__(ufunc, method, *inputs, **kwargs)]. *)
Variable getattr_ufuncs : value → string → callable.
Variable space_element : string → option value → M value.
Variable contains : string → value → bool.
Variable array_ufunc :
  value → string → string → list value → gmap string value → M value.

Definition NONE : option value := Some VNone.

(** [wrap_ufunc_base(name, n_in, n_out, doc)]: the ufunc is looked up in
    numpy before the shape is looked at. *)
Definition wrap_ufunc_base (name : string) (n_in n_out : nat)
  : result (value → callable) :=
  if negb (np_hasattr name) then Raise (AttributeError name) else
  match n_in, n_out with
  | 1, 1 => Ok (λ elem args kwargs,
      vs ← lift (bind_exact [("out", NONE)] args kwargs);
      match vs with
      | [out] =>
          array_ufunc elem name "__call__" [elem]
                      {[ "out" := VTuple [out] ]}
      | _ => raise (TypeError "wrapper")
      end)
  | 1, 2 => Ok (λ elem args kwargs,
      vs ← lift (bind_exact [("out1", NONE); ("out2", NONE)] args kwargs);
      match vs with
      | [out1; out2] =>
          array_ufunc elem name "__call__" [elem]
                      {[ "out" := VTuple [out1; out2] ]}
      | _ => raise (TypeError "wrapper")
      end)
  | 2, 1 => Ok (λ elem args kwargs,
      vs ← lift (bind_exact [("x2", None); ("out", NONE)] args kwargs);
      match vs with
      | [x2; out] =>
          array_ufunc elem name "__call__" [elem; x2]
                      {[ "out" := VTuple [out] ]}
      | _ => raise (TypeError "wrapper")
      end)
  | _, _ => Raise (NotImplementedError "")
  end.

(** [y1, y2 = r]: [r] is iterated; a value that is not iterable raises
    [TypeError], an iterable of another length than two [ValueError]. *)
Definition unpack2 (r : value) : result (value * value) :=
  match iter r with
  | Raise _ => Raise (TypeError "cannot unpack non-iterable object")
  | Ok [y1; y2] => Ok (y1, y2)
  | Ok ([] | [_]) => Raise (ValueError "not enough values to unpack")
  | Ok _ => Raise (ValueError "too many values to unpack")
  end.

(** [out = self.elem.space.element()] when [out is None]. *)
Definition default_out (elem out : value) : M value :=
  if is_None out then
    sp ← lift (attr_space elem);
    space_element sp None
  else mret out.

(** [wrap_ufunc_discretelp(name, n_in, n_out, doc)]. *)
Definition wrap_ufunc_discretelp (name : string) (n_in n_out : nat)
  : result (value → callable) :=
  match n_in, n_out with
  | 1, 0 => Ok (λ elem args kwargs,
      _ ← lift (bind_exact [] args kwargs);
      t ← lift (attr_tensor elem);
      let method := getattr_ufuncs t name in
      sp ← lift (attr_space elem);
      r ← method [] ∅;
      space_element sp (Some r))
  | 1, 1 => Ok (λ elem args kwargs,
      vs ← lift (bind_exact [("out", NONE)] args kwargs);
      match vs with
      | [out] =>
          t ← lift (attr_tensor elem);
          let method := getattr_ufuncs t name in
          if is_None out then
            sp ← lift (attr_space elem);
            r ← method [] ∅;
            space_element sp (Some r)
          else
            ot ← lift (attr_tensor out);
            _ ← method [] {[ "out" := ot ]};
            mret out
      | _ => raise (TypeError "wrapper")
      end)
  | 1, 2 => Ok (λ elem args kwargs,
      vs ← lift (bind_exact [("out1", NONE); ("out2", NONE)] args kwargs);
      match vs with
      | [out1; out2] =>
          t ← lift (attr_tensor elem);
          let method := getattr_ufuncs t name in
          out1 ← default_out elem out1;
          out2 ← default_out elem out2;
          t1 ← lift (attr_tensor out1);
          t2 ← lift (attr_tensor out2);
          r ← method [t1; t2] ∅;
          _ ← lift (unpack2 r);
          mret (VTuple [out1; out2])
      | _ => raise (TypeError "wrapper")
      end)
  | 2, 1 => Ok (λ elem args kwargs,
      vs ← lift (bind_exact [("x2", None); ("out", NONE)] args kwargs);
      match vs with
      | [x2; out] =>
          sp ← lift (attr_space elem);
          x2 ← (if contains sp x2 then lift (attr_tensor x2) else mret x2);
          t ← lift (attr_tensor elem);
          let method := getattr_ufuncs t name in
          if is_None out then
            r ← method [x2] ∅;
            space_element sp (Some r)
          else
            ot ← lift (attr_tensor out);
            _ ← method [x2; ot] ∅;
            mret out
      | _ => raise (TypeError "wrapper")
      end)
  | _, _ => Raise (NotImplementedError "")
  end.

(** The second operand as it is handed to the inner facade: unwrapped to
    its tensor when it belongs to the discretized space. *)
Definition operand (sp : string) (x2 : value) : result value :=
  if contains sp x2 then attr_tensor x2 else Ok x2.

(** [wrap_ufunc_productspace(name, n_in, n_out, doc)]. *)
Definition wrap_ufunc_productspace (name : string) (n_in n_out : nat)
  : result (value → callable) :=
  match n_in, n_out with
  | 1, 0 => Ok (λ elem args kwargs,
      _ ← lift (bind_exact [] args kwargs);
      xs ← lift (iter elem);
      result ← mapM (λ x, getattr_ufuncs x name [] ∅) xs;
      sp ← lift (attr_space elem);
      space_element sp (Some (VList result)))
  | 1, 1 => Ok (λ elem args kwargs,
      vs ← lift (bind_exact [("out", NONE)] args kwargs);
      match vs with
      | [out] =>
          if is_None out then
            xs ← lift (iter elem);
            result ← mapM (λ x, getattr_ufuncs x name [] ∅) xs;
            sp ← lift (attr_space elem);
            space_element sp (Some (VList result))
          else
            xs ← lift (iter elem);
            os ← lift (iter out);
            _ ← mapM (λ '(x, out_x),
                        getattr_ufuncs x name [] {[ "out" := out_x ]})
                     (zip xs os);
            mret out
      | _ => raise (TypeError "wrapper")
      end)
  | 1, 2 => Ok (λ elem args kwargs,
      vs ← lift (bind_exact [("out1", NONE); ("out2", NONE)] args kwargs);
      match vs with
      | [out1; out2] =>
          out1 ← default_out elem out1;
          out2 ← default_out elem out2;
          xs ← lift (iter elem);
          os1 ← lift (iter out1);
          os2 ← lift (iter out2);
          _ ← mapM (λ '(x, out1_x, out2_x),
                      getattr_ufuncs x name []
                        {[ "out1" := out1_x; "out2" := out2_x ]})
                   (zip3 xs os1 os2);
          mret (VTuple [out1; out2])
      | _ => raise (TypeError "wrapper")
      end)
  | 2, 1 => Ok (λ elem args kwargs,
      vs ← lift (bind_exact [("x2", None); ("out", NONE)] args kwargs);
      match vs with
      | [x2; out] =>
          sp ← lift (attr_space elem);
          if contains sp x2 then
            if is_None out then
              xs ← lift (iter elem);
              x2s ← lift (iter x2);
              result ← mapM (λ '(x, x2p), getattr_ufuncs x name [x2p] ∅)
                            (zip xs x2s);
              space_element sp (Some (VList result))
            else
              xs ← lift (iter elem);
              x2s ← lift (iter x2);
              os ← lift (iter out);
              _ ← mapM (λ '(x, x2p, outp),
                          getattr_ufuncs x name [x2p] {[ "out" := outp ]})
                       (zip3 xs x2s os);
              mret out
          else
            if is_None out then
              xs ← lift (iter elem);
              result ← mapM (λ x, getattr_ufuncs x name [x2] ∅) xs;
              space_element sp (Some (VList result))
            else
              xs ← lift (iter elem);
              os ← lift (iter out);
              _ ← mapM (λ '(x, outp),
                          getattr_ufuncs x name [x2] {[ "out" := outp ]})
                       (zip xs os);
              mret out
      | _ => raise (TypeError "wrapper")
      end)
  | _, _ => Raise (NotImplementedError "")
  end.

End Wrappers.

(** *** The facade of base tensors

    [TensorSpaceUfuncs]: the four reductions written in the class body,
    and one method per catalog entry, attached by the loop that follows
    the class. *)

Section TensorSpaceUfuncs.

Variable W : Type.
Variable np_hasattr : string → bool.
Variable array_ufunc :
  value → string → string → list value → gmap string value → Py.M W value.

(** The body shared by [sum], [prod], [min] and [max]: a [reduce] of the
    ufunc [ufunc] over the element. *)
Definition reduce_method (ufunc : string) (elem : value) : callable W :=
  λ args kwargs,
    vs ← lift (bind_exact
                 [("axis", NONE); ("dtype", NONE); ("out", NONE);
                  ("keepdims", Some (VScalar (SBool false)))] args kwargs);
    match vs with
    | [axis; dtype; out; keepdims] =>
        array_ufunc elem ufunc "reduce" [elem]
          {[ "axis" := axis; "dtype" := dtype; "out" := VTuple [out];
             "keepdims" := keepdims ]}
    | _ => raise (TypeError "wrapper")
    end.

Definition TensorSpaceUfuncs_sum := reduce_method "add".
Definition TensorSpaceUfuncs_prod := reduce_method "multiply".
Definition TensorSpaceUfuncs_min := reduce_method "minimum".
Definition TensorSpaceUfuncs_max := reduce_method "maximum".

(** [getattr(elem.ufuncs, name)] for a [TensorSpaceUfuncs] facade. The
    loop after the class calls the generator once for each catalog
    entry; were the generator to raise there, the module would not be
    imported: the method of that name then raises that exception. *)
Definition TensorSpaceUfuncs (elem : value) (name : string) : callable W :=
  if str_in name RAW_UFUNCS then
    match wrap_ufunc_base W np_hasattr array_ufunc name (np_nin name)
                          (np_nout name)
    with
    | Ok method => method elem
    | Raise e => λ _ _, raise e
    end
  else if bool_decide (name = "sum") then TensorSpaceUfuncs_sum elem
  else if bool_decide (name = "prod") then TensorSpaceUfuncs_prod elem
  else if bool_decide (name = "min") then TensorSpaceUfuncs_min elem
  else if bool_decide (name = "max") then TensorSpaceUfuncs_max elem
  else λ _ _, raise (AttributeError name).

End TensorSpaceUfuncs.

(** The shapes each generator accepts. *)
Definition base_shapes : list (nat * nat) := [(1, 1); (1, 2); (2, 1)].
Definition wrapper_shapes : list (nat * nat) :=
  [(1, 0); (1, 1); (1, 2); (2, 1)].

(** *** Reductions on base tensors *)

(** Besides the backend, the state records the tensor spaces constructed
    so far. *)
Record rstate (W : Type) : Type := RState {
  backend : W;
  constructed : list tensor_space
}.

Arguments RState {W} backend constructed.
Arguments backend {W} r.
Arguments constructed {W} r.

Definition np_isscalar (v : value) : bool :=
  match v with
  | VScalar (SBool _) | VScalar (SInt _) | VScalar (SStr _) => true
  | _ => false
  end.

(** Attributes of a base-tensor element and of a raw array. *)
Definition attr_tspace (v : value) : result tensor_space :=
  match v with
  | VTensor sp _ => Ok sp
  | _ => Raise (AttributeError "space")
  end.

Definition attr_dtype (v : value) : result value :=
  match v with
  | VTensor sp _ => Ok (VScalar (ts_dtype sp))
  | _ => Raise (AttributeError "dtype")
  end.

Definition attr_order (v : value) : result string :=
  match v with
  | VTensor sp _ => Ok (ts_order sp)
  | _ => Raise (AttributeError "order")
  end.

Definition attr_data (v : value) : result array :=
  match v with
  | VTensor _ data => Ok data
  | _ => Raise (AttributeError "data")
  end.

Definition attr_shape (v : value) : result (array * list nat) :=
  match v with
  | VArr a => Ok (a, a_shape a)
  | _ => Raise (AttributeError "shape")
  end.

Definition is_ArrayWeighting (w : weighting) : bool :=
  match w with ArrayWeighting _ _ => true | _ => false end.

(** The first statements of the generated wrapper: arrays given through
    [kwargs] are dropped, the positional parameters with defaults are put
    into [kwargs]. *)
Definition reduction_kwargs (axis keepdims : value)
    (kwargs : gmap string value) : gmap string value :=
  let kwargs := delete "a" kwargs in
  let kwargs := delete "b" kwargs in
  let kwargs := delete "out" kwargs in
  let kwargs :=
    if is_None axis then kwargs else <["axis" := axis]> kwargs in
  <["keepdims" := keepdims]> kwargs.

(** The weighting handed to the constructor of the output space: an
    array weighting is replaced by the no-op weighting with the
    originating space's exponent, any other weighting is kept. *)
Definition carried_weighting (sp : tensor_space) : option weighting :=
  match ts_weighting sp with
  | Some (ArrayWeighting _ _) => Some (NoWeighting (ts_exponent sp))
  | w => w
  end.

Section Reduction.

Variable W : Type.

Abbreviation MR := (Py.M (rstate W)).

(** Consumed from numpy: [getattr(np, name)(elem, **kwargs)]. *)
Variable np_call : string → value → gmap string value → Py.M W value.

Definition backend_call {A} (m : Py.M W A) : MR A := λ s,
  match m (backend s) with
  | Ok (a, w) => Ok (a, RState w (constructed s))
  | Raise e => Raise e
  end.

(** Modelled from the spec: the constructor of the tensor-space class
    and its [element] are missing from the sources.  The rebuilder does
    "construct a new space of the same concrete kind with the reduced
    shape/dtype/ordering and these extra parameters, then wrap the raw
    result as an element of it": the new space carries the arguments of
    the call; a parameter that is not passed is left to the default of
    the class, written [SNone] / [None]. *)
Definition construct_space (type : string) (shape : list nat)
    (dtype : value) (order : string) (extra_args : gmap string value)
  : MR tensor_space :=
  match dtype with
  | VScalar dt =>
      let exponent :=
        match extra_args !! "exponent" with
        | Some (VScalar e) => e
        | _ => SNone
        end in
      let weighting :=
        match extra_args !! "weighting" with
        | Some (VWeighting w) => Some w
        | _ => None
        end in
      let sp := TensorSpace type shape dt order exponent weighting in
      λ s, Ok (sp, RState (backend s) (constructed s ++ [sp]))
  | _ => raise (TypeError "data type not understood")
  end.

Definition tensor_space_element (sp : tensor_space) (a : array) : value :=
  VTensor sp a.

(** [wrap_reduction_numpy(name, doc)]: the generated
    [wrapper(self, axis=None, out=None, keepdims=False, **kwargs)]. *)
Definition wrap_reduction_numpy (name : string)
  : value → list value → gmap string value → MR value :=
  λ elem args kwargs,
  '(vs, kwargs) ← lift (bind_params
      [("axis", Some VNone); ("out", Some VNone);
       ("keepdims", Some (VScalar (SBool false)))] args kwargs);
  match vs with
  | [axis; out; keepdims] =>
      let kwargs := reduction_kwargs axis keepdims kwargs in
      elem_dtype ← lift (attr_dtype elem);
      let dtype := default elem_dtype (kwargs !! "dtype") in
      if is_None out then
        out_arr ← backend_call (np_call name elem kwargs);
        if np_isscalar out_arr then mret out_arr
        else
          space ← lift (attr_tspace elem);
          let extra_args : gmap string value := ∅ in
          let exponent := ts_exponent space in
          let extra_args :=
            match exponent with
            | SNone => extra_args
            | _ => <["exponent" := VScalar exponent]> extra_args
            end in
          let extra_args :=
            match ts_weighting space with
            | None => extra_args
            | Some weighting =>
                let weighting :=
                  if is_ArrayWeighting weighting then NoWeighting exponent
                  else weighting in
                <["weighting" := VWeighting weighting]> extra_args
            end in
          let out_space_constr := ts_type space in
          '(arr, shape) ← lift (attr_shape out_arr);
          order ← lift (attr_order elem);
          out_space ← construct_space out_space_constr shape dtype order
                                      extra_args;
          mret (tensor_space_element out_space arr)
      else
        data ← lift (attr_data out);
        _ ← backend_call (np_call name elem (<["out" := VArr data]> kwargs));
        mret out
  | _ => raise (TypeError "wrapper")
  end.

End Reduction.

End Ufuncs.

(** ** Concrete spaces, operators and collaborators

    Small instances of the external interfaces, used to run the
    definitions on explicit inputs. *)

Module Samples.
Import Py Discr.

(** A three-dimensional real data space. *)
Definition Rn3 : space :=
  Space "Rn(3)"
        ["Rn"; "Fn"; "FnBase"; "Ntuples"; "NtuplesBase"; "LinearSpace"; "Set"]
        "Rn.Vector"
        ["Fn.Vector"; "FnBase.Vector"; "Ntuples.Vector"; "NtuplesBase.Vector"]
        3 "float64" (Some "RealNumbers").

(** A three-dimensional complex data space. *)
Definition Cn3 : space :=
  Space "Cn(3)"
        ["Cn"; "Fn"; "FnBase"; "Ntuples"; "NtuplesBase"; "LinearSpace"; "Set"]
        "Cn.Vector"
        ["Fn.Vector"; "FnBase.Vector"; "Ntuples.Vector"; "NtuplesBase.Vector"]
        3 "complex128" (Some "ComplexNumbers").

(** A plain n-tuple space: no field attribute. *)
Definition Nt3 : space :=
  Space "Ntuples(3)" ["Ntuples"; "NtuplesBase"; "Set"]
        "Ntuples.Vector" ["NtuplesBase.Vector"] 3 "int64" None.

(** The real square-integrable functions on the unit interval. *)
Definition L2_unit : space :=
  Space "L2([0, 1])" ["L2"; "FunctionSpace"; "LinearSpace"; "Set"]
        "L2.Vector" ["FunctionSpace.Vector"; "LinearSpace.Vector"]
        0 "" (Some "RealNumbers").

(** Collocation and nearest-neighbour interpolation between them. *)
Definition collocation (order : string) : operator :=
  Operator "GridCollocation" ["GridCollocation"; "LinearOperator"; "Operator"]
           L2_unit Rn3 (Some order).

Definition interpolation (order : string) : operator :=
  Operator "NearestInterpolation"
           ["NearestInterpolation"; "LinearOperator"; "Operator"]
           Rn3 L2_unit (Some order).

Definition Discretization_mro : list string :=
  ["Discretization"; "RawDiscretization"; "FnBase"; "NtuplesBase";
   "LinearSpace"; "Set"].

(** Membership by the [space] attribute of the element; sampling of an
    abstract element gives the constant one; integer kernels. *)
Definition sample_contains (sp : space) (h : heap) (v : value) : bool :=
  match v with
  | VRef l =>
      match h !! l with
      | Some (ONtuple _ sp' _) => bool_decide (sp' = sp)
      | _ => false
      end
  | VAbs sp' _ => bool_decide (sp' = sp)
  | _ => false
  end.

Definition sample_asarray (h : heap) (v : value) (dtype order : string)
  : result (list Z) :=
  match v with
  | VNum z => Ok [z]
  | VSeq xs =>
      match nums xs with
      | Some zs => Ok zs
      | None => Raise (ValueError "setting an array element with a sequence")
      end
  | _ => Raise (TypeError "cannot convert to an array")
  end.

Definition dot (x y : list Z) : Z :=
  foldr Z.add 0%Z (zip_with Z.mul x y).

Definition sample_externals : externals :=
  {| contains := sample_contains;
     set_element := λ _ _ v, Ok v;
     op_apply := λ op _ _, Ok (replicate (sp_dim (op_range op)) 1%Z);
     np_asarray_flat := sample_asarray;
     k_lincomb := λ _ a x b y, zip_with (λ xi yi, a * xi + b * yi)%Z x y;
     k_dist := λ _ x y,
       foldr Z.add 0%Z (zip_with (λ xi yi, Z.abs (xi - yi)) x y);
     k_norm := λ _ x, foldr Z.add 0%Z (Z.abs <$> x);
     k_inner := λ _ x y, dot x y;
     k_multiply := λ _ x y, zip_with Z.mul x y |}.

(** The operator constructors of [odl.discr.operators], on a grid that
    carries no information. *)
Definition sample_GridCollocation (us : space) (g : unit) (ds : space)
    (order : string) : result operator :=
  Ok (Operator "GridCollocation"
               ["GridCollocation"; "LinearOperator"; "Operator"]
               us ds (Some order)).

Definition sample_NearestInterpolation (us : space) (g : unit) (ds : space)
    (order : string) : result operator :=
  Ok (Operator "NearestInterpolation"
               ["NearestInterpolation"; "LinearOperator"; "Operator"]
               ds us (Some order)).

(** A discretization of [L2_unit] by [Rn3] built without operators. *)
Definition bare_discr : discretization :=
  MkDiscr Discretization_mro (MkBase 3 "float64") L2_unit Rn3 None None "C".

End Samples.

(** ** A tracing backend for the ufunc wrappers

    The state is the list of the calls made on inner facades; a call
    returns a fresh array (two for [modf]). *)

Module UfuncSamples.
Import Py Ufuncs.

Record call : Type := Call {
  c_self : value;
  c_name : string;
  c_args : list value;
  c_kwargs : gmap string value
}.

Abbreviation trace := (list call).

Definition traced_ufuncs (x : value) (name : string) : callable trace :=
  λ args kwargs w,
    let r :=
      if bool_decide (name = "modf") then
        VTuple [VArr (Array [3] (2 * length w));
                VArr (Array [3] (2 * length w + 1))]
      else VArr (Array [3] (2 * length w)) in
    Ok (r, w ++ [Call x name args kwargs]).

(** [space.element(inp)]: a list builds a product element, another
    input is wrapped as the tensor of a discretized element, no input
    gives an element around a new array. *)
Definition sample_space_element (sp : string) (inp : option value)
  : Py.M trace value :=
  λ w,
    Ok (match inp with
        | Some (VList xs) => VProd sp xs
        | Some r => VDiscr sp r
        | None => VDiscr sp (VArr (Array [3] (1000 + length w)))
        end, w).

Definition sample_contains (sp : string) (v : value) : bool :=
  match v with
  | VDiscr sp' _ | VProd sp' _ => bool_decide (sp' = sp)
  | _ => false
  end.

Definition arr (n : nat) : value := VArr (Array [3] n).

(** A stand-in for the numpy reductions: the state counts the calls; the
    result is the output target when there is one, an array of shape
    [(3,)] when an axis is given, and a scalar otherwise. *)
Definition sample_np_call (name : string) (elem : value)
    (kwargs : gmap string value) : Py.M nat value :=
  λ w,
    Ok (match kwargs !! "out" with
        | Some o => o
        | None =>
            match kwargs !! "axis" with
            | Some _ => VArr (Array [3] w)
            | None => VScalar (SInt 6)
            end
        end, S w).

(** A 2 x 3 tensor space with an array weighting, and an element. *)
Definition weighted_space : tensor_space :=
  TensorSpace "NumpyTensorSpace" [2; 3] (SStr "float64") "C" (SInt 2)
              (Some (ArrayWeighting (Array [2; 3] 9) (SInt 2))).

Definition weighted_elem : value := VTensor weighted_space (Array [2; 3] 0).

Definition reduced_space : tensor_space :=
  TensorSpace "NumpyTensorSpace" [3] (SStr "float64") "C" (SInt 2)
              (Some (NoWeighting (SInt 2))).

(** A backend protocol that answers a call with a description of the
    call, and a space whose [element] wraps what it is given; the state
    counts the calls of the protocol. *)
Definition echo_array_ufunc (elem : value) (ufunc method : string)
    (inputs : list value) (kwargs : gmap string value) : Py.M nat value :=
  λ w,
    Ok (VTuple [VScalar (SStr ufunc); VScalar (SStr method); VList inputs;
                default VNone (kwargs !! "out")], S w).

Definition wrap_element (sp : string) (inp : option value)
  : Py.M nat value :=
  λ w, Ok (VDiscr sp (default VNone inp), w).

End UfuncSamples.

(** ** Properties of odl/discr/discretization.py *)

Module DiscrFacts.
Import Py Discr.

Lemma str_in_false (x : string) (t : list string) :
  x ∉ t → str_in x t = false.
Proof. intros H. unfold str_in. by rewrite bool_decide_eq_false. Qed.

Lemma str_in_true (x : string) (t : list string) :
  x ∈ t → str_in x t = true.
Proof. intros H. unfold str_in. by rewrite bool_decide_eq_true. Qed.

(** C4. The resolver is a pure lookup with three failure kinds: an
    identifier other than "numpy" and "cuda" is rejected for every
    template space; "cuda" without CUDA is rejected for every template
    space, before the field is looked at; for a recognized, available
    backend and a field class among real / complex / none, the table
    entry is returned, the missing entry (complex on cuda) being
    rejected with [NotImplementedError]. *)
Theorem dspace_type_failure_kinds :
  (∀ cuda sp impl, impl ≠ "numpy" → impl ≠ "cuda" →
     dspace_type cuda sp impl =
       Raise (ValueError "implementation type {} not understood."))
  ∧ (∀ sp, dspace_type false sp "cuda" =
       Raise (ValueError "CUDA implementation not available."))
  ∧ (∀ cuda sp fc, sp_field sp = field_key fc →
       dspace_type cuda sp "numpy" =
         Ok match fc with real => Rn | complex => Cn | no_field => Ntuples end)
  ∧ (∀ sp fc, sp_field sp = field_key fc →
       dspace_type true sp "cuda" =
         match fc with
         | real => Ok CudaRn
         | complex =>
             Raise (NotImplementedError
                      "no corresponding data space available for space {!r} and implementation {!r}.")
         | no_field => Ok CudaNtuples
         end).
Proof.
  split; [|split; [|split]].
  - intros cuda sp impl Hn Hc. unfold dspace_type.
    rewrite str_in_false; [done|].
    rewrite !elem_of_cons, elem_of_nil. intros [?|[?|[]]]; done.
  - intros sp. reflexivity.
  - intros cuda sp fc Hf. unfold dspace_type, field_type. rewrite Hf.
    destruct cuda, fc; reflexivity.
  - intros sp fc Hf. unfold dspace_type, field_type. rewrite Hf.
    destruct fc; reflexivity.
Qed.

Lemma dspace_type_failure_kinds_witness :
  dspace_type true Samples.Rn3 "opencl" =
    Raise (ValueError "implementation type {} not understood.")
  ∧ dspace_type false Samples.Cn3 "cuda" =
    Raise (ValueError "CUDA implementation not available.")
  ∧ dspace_type false Samples.Nt3 "numpy" = Ok Ntuples
  ∧ dspace_type true Samples.Cn3 "cuda" =
    Raise (NotImplementedError
             "no corresponding data space available for space {!r} and implementation {!r}.").
Proof.
  destruct dspace_type_failure_kinds as (H1 & H2 & H3 & H4).
  split; [apply H1; discriminate|].
  split; [apply H2|].
  split; [apply (H3 false Samples.Nt3 no_field); reflexivity|].
  apply (H4 Samples.Cn3 complex); reflexivity.
Defined.

(** *** Discretization objects are never modified *)

Lemma same_discrs_ret {A} (a : A) : same_discrs (mret a).
Proof. intros h a' h' [= <- <-] l. done. Qed.

Lemma same_discrs_bind {A B} (m : M A) (f : A → M B) :
  same_discrs m → (∀ a, same_discrs (f a)) → same_discrs (m ≫= f).
Proof.
  intros Hm Hf h b h' Hrun l. unfold mbind, M_bind in Hrun.
  destruct (m h) as [[a h1]|e] eqn:Hmh; [|done].
  rewrite (Hf a _ _ _ Hrun l). by apply (Hm _ _ _ Hmh).
Qed.

Lemma same_discrs_raise {A} e : same_discrs (raise e : M A).
Proof. intros h a h' Hrun. discriminate. Qed.

Lemma same_discrs_lift {A} (r : result A) : same_discrs (lift r).
Proof. intros h a h' Hrun l. destruct r; simplify_eq/=. done. Qed.

Lemma same_discrs_get_state : same_discrs get_state.
Proof. intros h a h' [= <- <-] l. done. Qed.

Lemma same_discrs_get_discr l : same_discrs (get_discr l).
Proof.
  intros h a h' Hrun l'. unfold get_discr in Hrun.
  repeat case_match; simplify_eq. done.
Qed.

Lemma same_discrs_get_vector l : same_discrs (get_vector l).
Proof.
  intros h a h' Hrun l'. unfold get_vector in Hrun.
  repeat case_match; simplify_eq. done.
Qed.

Lemma same_discrs_get_ntuple l : same_discrs (get_ntuple l).
Proof.
  intros h a h' Hrun l'. unfold get_ntuple in Hrun.
  repeat case_match; simplify_eq. done.
Qed.

Lemma discr_at_app_other (h : heap) (o : obj) l :
  (∀ d, o ≠ ODiscr d) → discr_at (h ++ [o]) l = discr_at h l.
Proof.
  intros Ho. unfold discr_at.
  destruct (decide (l < length h)) as [Hlt|Hge].
  - by rewrite lookup_app_l.
  - rewrite (lookup_ge_None_2 h l) by lia.
    rewrite lookup_app_r by lia.
    destruct (l - length h) as [|n]; simpl.
    + destruct o; [by destruct (Ho d)|done|done].
    + by destruct n.
Qed.

Lemma discr_at_app_new (h : heap) (d : discretization) l :
  discr_at (h ++ [ODiscr d]) l =
    if decide (l = length h) then Some d else discr_at h l.
Proof.
  unfold discr_at. case_decide as Hl.
  - subst l. by rewrite list_lookup_middle.
  - destruct (decide (l < length h)) as [Hlt|Hge].
    + by rewrite lookup_app_l.
    + rewrite (lookup_ge_None_2 h l) by lia.
      rewrite lookup_app_r by lia.
      destruct (l - length h) as [|n] eqn:Hn; [lia|]. simpl.
      by destruct n.
Qed.

Lemma same_discrs_alloc (o : obj) :
  (∀ d, o ≠ ODiscr d) → same_discrs (alloc o).
Proof.
  intros Ho h a h' [= <- <-] l. by apply discr_at_app_other.
Qed.

Lemma same_discrs_set_data l data : same_discrs (set_data l data).
Proof.
  intros h a h' Hrun l'. unfold set_data in Hrun.
  destruct (h !! l) as [[| mro sp old |]|] eqn:Hl; simplify_eq.
  unfold discr_at. destruct (decide (l = l')) as [->|Hne].
  - rewrite list_lookup_insert_eq by (by eapply lookup_lt_Some).
    by rewrite Hl.
  - by rewrite list_lookup_insert_ne.
Qed.

(** The repeated step of the proofs below: split a bind, close a leaf
    action, or case on the scrutinee of a conditional. *)
Ltac same_discrs_step :=
  first
    [ apply same_discrs_ret
    | apply same_discrs_raise
    | apply same_discrs_lift
    | apply same_discrs_get_state
    | apply same_discrs_get_discr
    | apply same_discrs_get_vector
    | apply same_discrs_get_ntuple
    | apply same_discrs_set_data
    | apply same_discrs_alloc; discriminate
    | apply same_discrs_bind; [|intros]
    | progress (repeat match goal with p : _ * _ |- _ => destruct p end)
    | case_match ].

Ltac same_discrs := repeat same_discrs_step.

Lemma same_discrs_dspace_element sp arr : same_discrs (dspace_element sp arr).
Proof. unfold dspace_element, dspace_zero. same_discrs. Qed.

Lemma same_discrs_ntuple_setitem l ix v : same_discrs (ntuple_setitem l ix v).
Proof. unfold ntuple_setitem, ntuple_setitem_data. same_discrs. Qed.

Lemma same_discrs_Vector__init__ cls sp nt :
  same_discrs (Vector__init__ cls sp nt).
Proof. unfold Vector__init__. same_discrs. Qed.

Lemma same_discrs_element E self inp : same_discrs (element E self inp).
Proof.
  unfold element, op_call.
  repeat first [ apply same_discrs_Vector__init__
               | apply same_discrs_dspace_element
               | same_discrs_step ].
Qed.

(** What a successful construction has checked and stored. *)
Lemma RawDiscretization__init___Ok cls us ds restr ext kwargs d :
  RawDiscretization__init__ cls us ds restr ext kwargs = Ok d →
  d = MkDiscr cls (MkBase (sp_dim ds) (sp_dtype ds)) us ds restr ext
              (default "C" (kwargs !! "order"))
  ∧ isinstance (sp_mro us) "Set" = true
  ∧ isinstance (sp_mro ds) "NtuplesBase" = true
  ∧ str_in (default "C" (kwargs !! "order")) ["C"; "F"] = true
  ∧ check_restr us ds (default "C" (kwargs !! "order")) restr = Ok tt
  ∧ check_ext us ds (default "C" (kwargs !! "order")) ext = Ok tt.
Proof.
  unfold RawDiscretization__init__. intros Hi.
  destruct (isinstance (sp_mro us) "Set"); [|done].
  destruct (isinstance (sp_mro ds) "NtuplesBase"); [|done].
  destruct (str_in _ _); [|done]. simpl in Hi.
  destruct (check_restr _ _ _ _) as [[]|]; [|done].
  destruct (check_ext _ _ _ _) as [[]|]; [|done].
  simpl in Hi. by simplify_eq.
Qed.

Lemma Discretization__init___Ok cls us ds restr ext kwargs d :
  Discretization__init__ cls us ds restr ext kwargs = Ok d →
  RawDiscretization__init__ cls us ds restr ext kwargs = Ok d
  ∧ isinstance (sp_mro us) "LinearSpace" = true
  ∧ isinstance (sp_mro ds) "FnBase" = true
  ∧ (∃ f, sp_field us = Some f ∧ sp_field ds = Some f).
Proof.
  unfold Discretization__init__. intros Hi.
  destruct (RawDiscretization__init__ _ _ _ _ _ _) as [d0|] eqn:Hraw;
    [|done].
  apply RawDiscretization__init___Ok in Hraw as (-> & _).
  simpl in Hi.
  destruct (isinstance (sp_mro us) "LinearSpace"); [|done].
  destruct (isinstance (sp_mro ds) "FnBase"); [|done]. simpl in Hi.
  unfold get_field in Hi.
  destruct (sp_field us) as [uf|]; [|done].
  destruct (sp_field ds) as [df|]; [|done]. simpl in Hi.
  case_bool_decide as Hf; [|done]. subst df. simpl in Hi.
  repeat (case_match; simplify_eq/=); (split; [done|eauto]).
Qed.

Lemma step_same_discrs E h h' :
  step E h h' →
  (∀ l, discr_at h' l = discr_at h l)
  ∨ (∃ d, h' = h ++ [ODiscr d] ∧ dim d = sp_dim (dspace d)
          ∧ dtype d = sp_dtype (dspace d)).
Proof.
  destruct 1 as
    [cls us ds restr ext kwargs d h Hi | cls us ds restr ext kwargs d h Hi
    | self inp v h h' Hr | x v h h' Hr | x a h h' Hr | x other b h h' Hr
    | x ix a h h' Hr | x ix v h h' Hr | self v h h' Hr
    | self z a x b y h h' Hr | self x y r h h' Hr | self x r h h' Hr
    | self x y r h h' Hr | self z x y h h' Hr ].
  - right. exists d. split; [done|].
    by apply RawDiscretization__init___Ok in Hi as (-> & _).
  - right. exists d. split; [done|].
    apply Discretization__init___Ok in Hi as (Hi & _).
    by apply RawDiscretization__init___Ok in Hi as (-> & _).
  - left. by eapply same_discrs_element.
  - left. revert Hr. apply (λ H, H h v h').
    unfold Vector_copy, ntuple_copy.
    repeat first [ apply same_discrs_element | same_discrs_step ].
  - left. revert Hr. apply (λ H, H h a h').
    unfold Vector_asarray, ntuple_asarray. same_discrs.
  - left. revert Hr. apply (λ H, H h b h').
    unfold Vector_equals, ntuple_equals. same_discrs.
  - left. revert Hr. apply (λ H, H h a h').
    unfold Vector__getitem__, ntuple_getitem. same_discrs.
  - left. revert Hr. apply (λ H, H h tt h').
    unfold Vector__setitem__.
    repeat first [ apply same_discrs_ntuple_setitem | same_discrs_step ].
  - left. revert Hr. apply (λ H, H h v h').
    unfold zero, dspace_zero.
    repeat first [ apply same_discrs_Vector__init__ | same_discrs_step ].
  - left. revert Hr. apply (λ H, H h tt h').
    unfold _lincomb, dspace__lincomb, ntuple_asarray. same_discrs.
  - left. revert Hr. apply (λ H, H h r h').
    unfold _dist, dspace__dist, ntuple_asarray. same_discrs.
  - left. revert Hr. apply (λ H, H h r h').
    unfold _norm, dspace__norm, ntuple_asarray. same_discrs.
  - left. revert Hr. apply (λ H, H h r h').
    unfold _inner, dspace__inner, ntuple_asarray. same_discrs.
  - left. revert Hr. apply (λ H, H h tt h').
    unfold _multiply, dspace__multiply, ntuple_asarray. same_discrs.
Qed.

Lemma discr_at_Some (h : heap) l d :
  discr_at h l = Some d ↔ h !! l = Some (ODiscr d).
Proof.
  unfold discr_at. split.
  - destruct (h !! l) as [[]|]; naive_solver.
  - by intros ->.
Qed.

Lemma rtc_step_keeps_discr E h h' l d :
  rtc (step E) h h' → discr_at h l = Some d → discr_at h' l = Some d.
Proof.
  induction 1 as [h|h h1 h2 Hstep _ IH]; [done|].
  intros Hl. apply IH.
  destruct (step_same_discrs _ _ _ Hstep) as [Hsame|(d' & -> & _)].
  - by rewrite Hsame.
  - rewrite discr_at_app_new. case_decide as Hnew; [|done].
    apply discr_at_Some, lookup_lt_Some in Hl. lia.
Qed.

(** C10. A discretization that comes out of [RawDiscretization.__init__]
    or [Discretization.__init__] has the dimension and the dtype of its
    data space; and in every heap reached from the empty one by
    constructions and method calls, each discretization object has
    [dim == dspace.dim] and [dtype == dspace.dtype], and stays the very
    same object under any further calls. *)
Theorem dim_dtype_invariant :
  (∀ cls us ds restr ext kwargs d,
     RawDiscretization__init__ cls us ds restr ext kwargs = Ok d
     ∨ Discretization__init__ cls us ds restr ext kwargs = Ok d →
     dspace d = ds ∧ dim d = sp_dim ds ∧ dtype d = sp_dtype ds)
  ∧ (∀ E h l d,
       rtc (step E) [] h → h !! l = Some (ODiscr d) →
       (dim d = sp_dim (dspace d) ∧ dtype d = sp_dtype (dspace d))
       ∧ ∀ h', rtc (step E) h h' → h' !! l = Some (ODiscr d)).
Proof.
  split.
  - intros cls us ds restr ext kwargs d [Hi|Hi].
    + by apply RawDiscretization__init___Ok in Hi as (-> & _).
    + apply Discretization__init___Ok in Hi as (Hi & _).
      by apply RawDiscretization__init___Ok in Hi as (-> & _).
  - intros E h l d Hreach Hl. split.
    + revert l d Hl. pattern h. revert h Hreach.
      apply rtc_ind_r; [done|].
      intros h1 h2 Hreach Hstep IH l d Hl. apply discr_at_Some in Hl.
      destruct (step_same_discrs _ _ _ Hstep) as [Hsame|(d' & -> & Hd')].
      * rewrite Hsame in Hl. by apply (IH l), discr_at_Some.
      * rewrite discr_at_app_new in Hl. case_decide; simplify_eq; [done|].
        by apply (IH l), discr_at_Some.
    + intros h' Hrun. apply discr_at_Some.
      eapply rtc_step_keeps_discr; [done|]. by apply discr_at_Some.
Qed.

Lemma dim_dtype_invariant_witness :
  let E := Samples.sample_externals in
  let d := Samples.bare_discr in
  let h1 := [ODiscr d] in
  let h2 := h1 ++ [ONtuple (Vector_mro Samples.Rn3) Samples.Rn3 [0; 0; 0]%Z;
                   OVector "Discretization.Vector" 0 1] in
  let h3 := <[1 := ONtuple (Vector_mro Samples.Rn3) Samples.Rn3 [0; 7; 0]%Z]> h2 in
  (dspace d = Samples.Rn3 ∧ dim d = 3 ∧ dtype d = "float64")
  ∧ (dim d = sp_dim (dspace d) ∧ dtype d = sp_dtype (dspace d))
  ∧ h3 !! 0 = Some (ODiscr d).
Proof.
  intros E d h1 h2 h3.
  destruct dim_dtype_invariant as [Hnew Hinv].
  assert (Hi : Discretization__init__ Samples.Discretization_mro
                 Samples.L2_unit Samples.Rn3 None None ∅ = Ok d)
    by reflexivity.
  assert (H1 : rtc (step E) [] h1).
  { apply rtc_once. apply (step_Discretization E _ _ _ _ _ _ _ [] Hi). }
  assert (H3 : rtc (step E) h1 h3).
  { eapply rtc_l; [apply (step_element E 0 VNone 2 h1 h2); reflexivity|].
    apply rtc_once.
    apply (step_setitem E 2 (Idx 1) (VNum 7) h2 h3). reflexivity. }
  split; [apply (Hnew _ _ _ _ _ _ _ (or_intror Hi))|].
  destruct (Hinv E h1 0 d H1 eq_refl) as [Hd Hkeep].
  split; [exact Hd|]. exact (Hkeep h3 H3).
Defined.

(** C2 (as the code behaves).  A discretization constructed without a
    restriction operator cannot be compared with itself: the comparison
    reads [other.restriction], which raises. *)
Theorem equals_self_without_restriction cls us ds ext kwargs d :
  RawDiscretization__init__ cls us ds None ext kwargs = Ok d
  ∨ Discretization__init__ cls us ds None ext kwargs = Ok d →
  equals d d = Raise (NotImplementedError "no restriction operator provided.").
Proof.
  intros Hi.
  assert (RawDiscretization__init__ cls us ds None ext kwargs = Ok d)
    as Hraw.
  { destruct Hi as [Hi|Hi]; [done|].
    by apply Discretization__init___Ok in Hi as (Hi & _). }
  apply RawDiscretization__init___Ok in Hraw as (-> & _).
  unfold equals, NtuplesBase_equals. simpl.
  by rewrite !bool_decide_eq_true_2.
Qed.

Lemma equals_self_without_restriction_witness :
  Discretization__init__ Samples.Discretization_mro Samples.L2_unit
                         Samples.Rn3 None None ∅ = Ok Samples.bare_discr
  ∧ equals Samples.bare_discr Samples.bare_discr =
      Raise (NotImplementedError "no restriction operator provided.").
Proof.
  split; [reflexivity|].
  apply (equals_self_without_restriction Samples.Discretization_mro
           Samples.L2_unit Samples.Rn3 None ∅).
  right. reflexivity.
Defined.

(** *** Element resolution *)

Lemma get_discr_Some (h : heap) l d :
  h !! l = Some (ODiscr d) → get_discr l h = Ok (d, h).
Proof. unfold get_discr. by intros ->. Qed.

Lemma get_vector_Some (h : heap) l cls sl nl :
  h !! l = Some (OVector cls sl nl) → get_vector l h = Ok (cls, sl, nl, h).
Proof. unfold get_vector. by intros ->. Qed.

Lemma get_ntuple_Some (h : heap) l mro sp data :
  h !! l = Some (ONtuple mro sp data) →
  get_ntuple l h = Ok (mro, sp, data, h).
Proof. unfold get_ntuple. by intros ->. Qed.

(** A successful [Vector(space, ntuple)] allocates the wrapper and
    nothing else; the wrapper refers to the object it was given. *)
Lemma Vector__init___Ok cls space ntuple h v h' :
  Vector__init__ cls space ntuple h = Ok (v, h') →
  ∃ nt, ntuple = VRef nt ∧ v = length h ∧ h' = h ++ [OVector cls space nt].
Proof.
  unfold Vector__init__, mbind, M_bind, get_state, get_discr, raise, alloc.
  intros Hrun. repeat (case_match; simplify_eq/=). eauto.
Qed.

(** [element] once [self] is known to be the discretization [d]. *)
Lemma element_cases E self d h :
  h !! self = Some (ODiscr d) →
  ∀ i, element E self i h =
       match i with
       | VNone =>
           (nt ← dspace_element (dspace d) None;
            Vector__init__ (Vector_class d) self (VRef nt)) h
       | _ =>
           if contains E (dspace d) h i then
             Vector__init__ (Vector_class d) self i h
           else if contains E (uspace d) h i then
             (restr ← lift (restriction d);
              u ← lift (set_element E (uspace d) h i);
              y ← op_call E restr u;
              Vector__init__ (Vector_class d) self y) h
           else
             (arr ← lift (np_asarray_flat E h i
                            (sp_dtype (dspace d)) (order d));
              nt ← dspace_element (dspace d) (Some arr);
              Vector__init__ (Vector_class d) self (VRef nt)) h
       end.
Proof.
  intros Hd i. unfold element at 1, mbind at 1, M_bind at 1.
  rewrite (get_discr_Some _ _ _ Hd).
  destruct i; try done;
    unfold mbind at 1, M_bind at 1, get_state;
    by repeat case_match.
Qed.

(** C1. [element] is a priority chain of four steps. With no input it
    wraps a fresh zero/default element of the data space. An input that
    is a member of the data space is wrapped as it is, without a copy,
    whatever its relation to the abstract space. Otherwise an input that
    is a member of the abstract space is restricted and the result
    wrapped, [NotImplementedError] being raised when no restriction
    operator was configured. Otherwise the input is coerced to a flat
    array of the data space's dtype in the discretization's ordering and
    wrapped. *)
Theorem element_priority_chain E self d inp h :
  h !! self = Some (ODiscr d) →
  let cls := Vector_class d in
  (inp = VNone →
     element E self inp h =
       Vector__init__ cls self (VRef (length h))
         (h ++ [ONtuple (Vector_mro (dspace d)) (dspace d)
                        (replicate (sp_dim (dspace d)) 0%Z)]))
  ∧ (inp ≠ VNone → contains E (dspace d) h inp = true →
       element E self inp h = Vector__init__ cls self inp h
       ∧ ∀ v h', element E self inp h = Ok (v, h') →
           ∃ nt, inp = VRef nt ∧ v = length h
                 ∧ h' = h ++ [OVector cls self nt])
  ∧ (inp ≠ VNone → contains E (dspace d) h inp = false →
     contains E (uspace d) h inp = true →
       match _restriction d with
       | None =>
           element E self inp h =
             Raise (NotImplementedError "no restriction operator provided.")
       | Some restr =>
           element E self inp h =
             (u ← lift (set_element E (uspace d) h inp);
              y ← op_call E restr u;
              Vector__init__ cls self y) h
       end)
  ∧ (inp ≠ VNone → contains E (dspace d) h inp = false →
     contains E (uspace d) h inp = false →
       element E self inp h =
         (arr ← lift (np_asarray_flat E h inp (sp_dtype (dspace d))
                                      (order d));
          nt ← dspace_element (dspace d) (Some arr);
          Vector__init__ cls self (VRef nt)) h).
Proof.
  intros Hd cls.
  pose proof (element_cases E self d h Hd) as Hel. fold cls in Hel.
  split; [|split; [|split]].
  - intros ->. by rewrite Hel.
  - intros Hne Hin.
    assert (element E self inp h = Vector__init__ cls self inp h) as Heq.
    { rewrite Hel. destruct inp; try done; by rewrite Hin. }
    split; [done|]. intros v h' Hrun. rewrite Heq in Hrun.
    by apply Vector__init___Ok.
  - intros Hne Hd_out Hu_in. rewrite Hel.
    unfold restriction.
    destruct inp; try done; rewrite Hd_out, Hu_in;
      by destruct (_restriction d).
  - intros Hne Hd_out Hu_out. rewrite Hel.
    destruct inp; try done; by rewrite Hd_out, Hu_out.
Qed.

Lemma element_priority_chain_witness :
  let E := Samples.sample_externals in
  let d := Samples.bare_discr in
  let x := ONtuple (Vector_mro Samples.Rn3) Samples.Rn3 [1; 2; 3]%Z in
  let h := [ODiscr d; x] in
  element E 0 VNone h =
    Ok (3, h ++ [ONtuple (Vector_mro Samples.Rn3) Samples.Rn3 [0; 0; 0]%Z;
                 OVector "Discretization.Vector" 0 2])
  ∧ element E 0 (VRef 1) h =
    Ok (2, h ++ [OVector "Discretization.Vector" 0 1])
  ∧ element E 0 (VAbs Samples.L2_unit "f") h =
    Raise (NotImplementedError "no restriction operator provided.")
  ∧ element E 0 (VSeq [VNum 4; VNum 5; VNum 6]) h =
    Ok (3, h ++ [ONtuple (Vector_mro Samples.Rn3) Samples.Rn3 [4; 5; 6]%Z;
                 OVector "Discretization.Vector" 0 2]).
Proof.
  intros E d x h.
  assert (Hd : h !! 0 = Some (ODiscr d)) by reflexivity.
  split; [|split; [|split]].
  - destruct (element_priority_chain E 0 d VNone h Hd) as (H1 & _).
    rewrite (H1 eq_refl). reflexivity.
  - destruct (element_priority_chain E 0 d (VRef 1) h Hd) as (_ & H2 & _).
    destruct H2 as [-> _]; [discriminate|reflexivity|]. reflexivity.
  - destruct (element_priority_chain E 0 d (VAbs Samples.L2_unit "f") h Hd)
      as (_ & _ & H3 & _).
    apply H3; [discriminate|reflexivity|reflexivity].
  - destruct (element_priority_chain E 0 d
                (VSeq [VNum 4; VNum 5; VNum 6]) h Hd) as (_ & _ & _ & H4).
    rewrite H4; [reflexivity|discriminate|reflexivity|reflexivity].
Defined.

(** *** Copies *)

(** A completed assignment to entries of the n-tuple at [l] changes the
    object at [l] and no other. *)
Lemma set_data_other l data h h' l' :
  set_data l data h = Ok (tt, h') → l' ≠ l → h' !! l' = h !! l'.
Proof.
  unfold set_data. intros Hrun Hne.
  repeat (case_match; simplify_eq/=).
  by rewrite list_lookup_insert_ne.
Qed.

Lemma get_ntuple_heap l h r h' : get_ntuple l h = Ok (r, h') → h' = h.
Proof. unfold get_ntuple. intros. by repeat (case_match; simplify_eq/=). Qed.

Lemma ntuple_setitem_data_other l ix vals h h' l' :
  ntuple_setitem_data l ix vals h = Ok (tt, h') → l' ≠ l →
  h' !! l' = h !! l'.
Proof.
  unfold ntuple_setitem_data, mbind, M_bind, raise. intros Hrun Hne.
  destruct (get_ntuple l h) as [[[[mro sp] data] h1]|] eqn:Hg; [|done].
  apply get_ntuple_heap in Hg as ->.
  repeat (case_match; simplify_eq/=); by eapply set_data_other.
Qed.

Lemma ntuple_setitem_other l ix v h h' l' :
  ntuple_setitem l ix v h = Ok (tt, h') → l' ≠ l → h' !! l' = h !! l'.
Proof.
  unfold ntuple_setitem, mbind, M_bind, raise. intros Hrun Hne.
  destruct v; try done.
  - destruct (get_ntuple l0 h) as [[[[mro sp] data] h1]|] eqn:Hg; [|done].
    apply get_ntuple_heap in Hg as ->.
    by eapply ntuple_setitem_data_other.
  - by eapply ntuple_setitem_data_other.
  - destruct (nums xs); [|done]. by eapply ntuple_setitem_data_other.
Qed.

Lemma Vector__setitem___other x cls sl nt ix v h h' l' :
  h !! x = Some (OVector cls sl nt) →
  Vector__setitem__ x ix v h = Ok (tt, h') → l' ≠ nt →
  h' !! l' = h !! l'.
Proof.
  intros Hx. unfold Vector__setitem__, mbind at 1, M_bind at 1, get_state.
  intros Hrun Hne.
  destruct (isinstance_value h v _).
  - unfold mbind at 1, M_bind at 1 in Hrun.
    rewrite (get_vector_Some _ _ _ _ _ Hx) in Hrun.
    destruct v as [| vl | | |]; try done.
    unfold mbind at 1, M_bind at 1, get_vector in Hrun.
    repeat (case_match; simplify_eq/=).
    match goal with
    | H : (get_ntuple ?n ≫= _) _ = _ |- _ =>
        by apply (ntuple_setitem_other nt ix (VRef n) _ _ _ H)
    end.
  - unfold mbind at 1, M_bind at 1 in Hrun.
    rewrite (get_vector_Some _ _ _ _ _ Hx) in Hrun.
    by eapply ntuple_setitem_other.
Qed.

(** C9. Let [x] be an element of the discretization [self]: a wrapper
    of the class of [self] around an n-tuple that is an instance of
    [dspace.Vector], whose copy the data space recognises as a member.
    Then [x.copy()] returns a new object [x'], different from [x], of the
    same class, wrapping a new n-tuple with the same entries; [x] and
    [x'] are equal; and after any completed indexed assignment to [x']
    the n-tuple of [x] is what it was. *)
Theorem copy_is_independent E self d x nt mro sp data h :
  h !! self = Some (ODiscr d) →
  isinstance (d_mro d) "RawDiscretization" = true →
  h !! x = Some (OVector (Vector_class d) self nt) →
  h !! nt = Some (ONtuple mro sp data) →
  isinstance mro (sp_Vector (dspace d)) = true →
  contains E (dspace d) (h ++ [ONtuple mro sp data]) (VRef (length h)) = true →
  let c := length h in
  let x' := S (length h) in
  let h' := h ++ [ONtuple mro sp data; OVector (Vector_class d) self c] in
  Vector_copy E x h = Ok (x', h')
  ∧ x' ≠ x ∧ h !! x' = None ∧ c ≠ nt ∧ h !! c = None
  ∧ Vector_equals x (VRef x') h' = Ok (true, h')
  ∧ Vector_equals x' (VRef x) h' = Ok (true, h')
  ∧ Vector_asarray x' h' = Ok (data, h')
  ∧ ∀ ix v h'',
      Vector__setitem__ x' ix v h' = Ok (tt, h'') →
      h'' !! nt = Some (ONtuple mro sp data)
      ∧ h'' !! x = Some (OVector (Vector_class d) self nt)
      ∧ Vector_asarray x h'' = Ok (data, h'').
Proof.
  intros Hd Hraw Hx Hnt Hinst Hmem c x' h'.
  assert (Hxlt : x < length h) by (by eapply lookup_lt_Some).
  assert (Hntlt : nt < length h) by (by eapply lookup_lt_Some).
  assert (Hslt : self < length h) by (by eapply lookup_lt_Some).
  set (h1 := h ++ [ONtuple mro sp data]).
  assert (Hh' : h' = h1 ++ [OVector (Vector_class d) self c]).
  { unfold h', h1. by rewrite <- app_assoc. }
  assert (Hc1 : h1 !! c = Some (ONtuple mro sp data))
    by (by apply list_lookup_middle).
  assert (Hd1 : h1 !! self = Some (ODiscr d))
    by (unfold h1; by rewrite lookup_app_l).
  assert (Hx' : h' !! x = Some (OVector (Vector_class d) self nt))
    by (unfold h'; by rewrite lookup_app_l).
  assert (Hnt' : h' !! nt = Some (ONtuple mro sp data))
    by (unfold h'; by rewrite lookup_app_l).
  assert (Hc' : h' !! c = Some (ONtuple mro sp data)).
  { rewrite Hh'. rewrite lookup_app_l; [done|].
    unfold h1. rewrite length_app. simpl. lia. }
  assert (Hx'' : h' !! x' = Some (OVector (Vector_class d) self c)).
  { rewrite Hh'. apply list_lookup_middle.
    unfold h1. rewrite length_app. simpl. lia. }
  split.
  { unfold Vector_copy, mbind at 1, M_bind at 1.
    rewrite (get_vector_Some _ _ _ _ _ Hx).
    unfold mbind at 1, M_bind at 1, ntuple_copy, mbind at 1, M_bind at 1.
    rewrite (get_ntuple_Some _ _ _ _ _ Hnt). unfold alloc at 1.
    fold c. fold h1.
    rewrite (element_cases E self d h1 Hd1). unfold h1 at 1, c at 1.
    rewrite Hmem. fold c h1.
    unfold Vector__init__, mbind at 1, M_bind at 1, get_state.
    rewrite Hd1. simpl. rewrite Hraw.
    assert (bool_decide (Vector_class d = "Discretization.Vector")
            && negb (isinstance (d_mro d) "Discretization") = false) as ->.
    { unfold Vector_class.
      destruct (isinstance (d_mro d) "Discretization"); [|done].
      by rewrite andb_false_r. }
    simpl. unfold mbind at 1, M_bind at 1.
    rewrite (get_discr_Some _ _ _ Hd1). rewrite Hc1. simpl.
    rewrite Hinst. simpl. unfold alloc.
    rewrite Hh'. do 3 f_equal.
    unfold h1. rewrite length_app. simpl. unfold x'. lia. }
  split; [unfold x'; lia|].
  split; [apply lookup_ge_None_2; unfold x'; lia|].
  split; [unfold c; lia|].
  split; [apply lookup_ge_None_2; unfold c; lia|].
  assert (Heq : ∀ a b na nb,
             h' !! a = Some (OVector (Vector_class d) self na) →
             h' !! b = Some (OVector (Vector_class d) self nb) →
             h' !! na = Some (ONtuple mro sp data) →
             h' !! nb = Some (ONtuple mro sp data) →
             Vector_equals a (VRef b) h' = Ok (true, h')).
  { intros a b na nb Ha Hb Hna Hnb.
    unfold Vector_equals, mbind at 1, M_bind at 1.
    rewrite (get_vector_Some _ _ _ _ _ Ha).
    unfold mbind at 1, M_bind at 1, get_state. rewrite Hb.
    rewrite bool_decide_eq_true_2 by done.
    unfold ntuple_equals, mbind at 1, M_bind at 1.
    rewrite (get_ntuple_Some _ _ _ _ _ Hna).
    unfold mbind at 1, M_bind at 1.
    rewrite (get_ntuple_Some _ _ _ _ _ Hnb).
    by rewrite !bool_decide_eq_true_2. }
  split; [by eapply Heq|]. split; [by eapply Heq|].
  assert (Hasarray : ∀ a na (g : heap),
             g !! a = Some (OVector (Vector_class d) self na) →
             g !! na = Some (ONtuple mro sp data) →
             Vector_asarray a g = Ok (data, g)).
  { intros a na g Ha Hna.
    unfold Vector_asarray, mbind at 1, M_bind at 1.
    rewrite (get_vector_Some _ _ _ _ _ Ha).
    unfold ntuple_asarray, mbind at 1, M_bind at 1.
    by rewrite (get_ntuple_Some _ _ _ _ _ Hna). }
  split; [by eapply Hasarray|].
  intros ix v h'' Hset.
  assert (Hframe : ∀ l', l' ≠ c → h'' !! l' = h' !! l').
  { intros l' Hl'. by eapply Vector__setitem___other. }
  assert (h'' !! nt = Some (ONtuple mro sp data)) as Hnt''.
  { rewrite Hframe; [done|unfold c; lia]. }
  assert (h'' !! x = Some (OVector (Vector_class d) self nt)) as Hxx.
  { rewrite Hframe; [done|unfold c; lia]. }
  split; [done|]. split; [done|]. by eapply Hasarray.
Qed.

Lemma copy_is_independent_witness :
  let E := Samples.sample_externals in
  let d := Samples.bare_discr in
  let nt := ONtuple (Vector_mro Samples.Rn3) Samples.Rn3 [1; 2; 3]%Z in
  let h := [ODiscr d; nt; OVector "Discretization.Vector" 0 1] in
  let h' := h ++ [nt; OVector "Discretization.Vector" 0 3] in
  Vector_copy E 2 h = Ok (4, h')
  ∧ Vector_equals 2 (VRef 4) h' = Ok (true, h')
  ∧ Vector__setitem__ 4 (Idx 0) (VNum 9) h' =
      Ok (tt, <[3 := ONtuple (Vector_mro Samples.Rn3) Samples.Rn3
                             [9; 2; 3]%Z]> h')
  ∧ Vector_asarray 2
      (<[3 := ONtuple (Vector_mro Samples.Rn3) Samples.Rn3 [9; 2; 3]%Z]> h') =
      Ok ([1; 2; 3]%Z,
          <[3 := ONtuple (Vector_mro Samples.Rn3) Samples.Rn3 [9; 2; 3]%Z]> h').
Proof.
  intros E d nt h h'.
  destruct (copy_is_independent E 0 d 2 1 (Vector_mro Samples.Rn3)
              Samples.Rn3 [1; 2; 3]%Z h)
    as (Hcopy & _ & _ & _ & _ & Heq & _ & _ & Hframe);
    [reflexivity|reflexivity|reflexivity|reflexivity|reflexivity
    |reflexivity|].
  split; [exact Hcopy|]. split; [exact Heq|].
  assert (Hset : Vector__setitem__ 4 (Idx 0) (VNum 9) h' =
      Ok (tt, <[3 := ONtuple (Vector_mro Samples.Rn3) Samples.Rn3
                             [9; 2; 3]%Z]> h')) by reflexivity.
  split; [exact Hset|].
  exact (proj2 (proj2 (Hframe (Idx 0) (VNum 9) _ Hset))).
Defined.

(** *** Linear-space primitives *)

Lemma set_data_Some (h : heap) l mro sp old data :
  h !! l = Some (ONtuple mro sp old) →
  set_data l data h = Ok (tt, <[l := ONtuple mro sp data]> h).
Proof. unfold set_data. by intros ->. Qed.

Lemma ntuple_asarray_Some (h : heap) l mro sp data :
  h !! l = Some (ONtuple mro sp data) → ntuple_asarray l h = Ok (data, h).
Proof.
  intros Hl. unfold ntuple_asarray, mbind, M_bind.
  by rewrite (get_ntuple_Some _ _ _ _ _ Hl).
Qed.

(** C5. The linear-space primitives of a discretization pass through to
    its data space, on the unwrapped n-tuples: [zero()] wraps
    [dspace.zero()]; [_lincomb] and [_multiply] are the data space's
    primitives on [z.ntuple], [x.ntuple], [y.ntuple], so that [z.ntuple]
    receives the data-space kernel's value for [a·x + b·y] (resp.
    [x·y]); [_dist], [_norm] and [_inner] return the data space's own
    kernel values on the entries, and these do not change when the
    undiscretized space is replaced by any other. *)
Theorem linear_primitives_pass_through E self d h :
  h !! self = Some (ODiscr d) →
  zero self h =
    Vector__init__ (Vector_class d) self (VRef (length h))
      (h ++ [ONtuple (Vector_mro (dspace d)) (dspace d)
                     (replicate (sp_dim (dspace d)) 0%Z)])
  ∧ ∀ z x y cz cx cy sz sx sy znt xnt ynt a b,
      h !! z = Some (OVector cz sz znt) →
      h !! x = Some (OVector cx sx xnt) →
      h !! y = Some (OVector cy sy ynt) →
      (_lincomb E self z a x b y h =
         dspace__lincomb E (dspace d) znt a xnt b ynt h
       ∧ _multiply E self z x y h = dspace__multiply E (dspace d) znt xnt ynt h
       ∧ _dist E self x y h = dspace__dist E (dspace d) xnt ynt h
       ∧ _norm E self x h = dspace__norm E (dspace d) xnt h
       ∧ _inner E self x y h = dspace__inner E (dspace d) xnt ynt h)
      ∧ ∀ mz spz zd mx spx xd my spy yd,
          h !! znt = Some (ONtuple mz spz zd) →
          h !! xnt = Some (ONtuple mx spx xd) →
          h !! ynt = Some (ONtuple my spy yd) →
          _lincomb E self z a x b y h =
            Ok (tt, <[znt := ONtuple mz spz
                               (k_lincomb E (dspace d) a xd b yd)]> h)
          ∧ _multiply E self z x y h =
            Ok (tt, <[znt := ONtuple mz spz
                               (k_multiply E (dspace d) xd yd)]> h)
          ∧ _dist E self x y h = Ok (k_dist E (dspace d) xd yd, h)
          ∧ _norm E self x h = Ok (k_norm E (dspace d) xd, h)
          ∧ _inner E self x y h = Ok (k_inner E (dspace d) xd yd, h)
          ∧ ∀ us, self ≠ x → self ≠ y → self ≠ xnt → self ≠ ynt →
              let h2 := <[self := ODiscr (with_uspace d us)]> h in
              _dist E self x y h2 = Ok (k_dist E (dspace d) xd yd, h2)
              ∧ _norm E self x h2 = Ok (k_norm E (dspace d) xd, h2)
              ∧ _inner E self x y h2 = Ok (k_inner E (dspace d) xd yd, h2).
Proof.
  intros Hd. split.
  { unfold zero, mbind at 1, M_bind at 1.
    by rewrite (get_discr_Some _ _ _ Hd). }
  intros z x y cz cx cy sz sx sy znt xnt ynt a b Hz Hx Hy.
  assert (Hpass :
    ∀ (g : heap) (d0 : discretization),
      g !! self = Some (ODiscr d0) →
      g !! z = Some (OVector cz sz znt) →
      g !! x = Some (OVector cx sx xnt) →
      g !! y = Some (OVector cy sy ynt) →
      _lincomb E self z a x b y g =
        dspace__lincomb E (dspace d0) znt a xnt b ynt g
      ∧ _multiply E self z x y g =
        dspace__multiply E (dspace d0) znt xnt ynt g
      ∧ _dist E self x y g = dspace__dist E (dspace d0) xnt ynt g
      ∧ _norm E self x g = dspace__norm E (dspace d0) xnt g
      ∧ _inner E self x y g = dspace__inner E (dspace d0) xnt ynt g).
  { intros g d0 Hg Hgz Hgx Hgy.
    unfold _lincomb, _multiply, _dist, _norm, _inner.
    repeat split;
      unfold mbind at 1, M_bind at 1; rewrite (get_discr_Some _ _ _ Hg);
      repeat (unfold mbind at 1, M_bind at 1;
              first [ rewrite (get_vector_Some _ _ _ _ _ Hgz)
                    | rewrite (get_vector_Some _ _ _ _ _ Hgx)
                    | rewrite (get_vector_Some _ _ _ _ _ Hgy) ]);
      reflexivity. }
  assert (Hval :
    ∀ (g : heap) sp mx spx xd my spy yd,
      g !! xnt = Some (ONtuple mx spx xd) →
      g !! ynt = Some (ONtuple my spy yd) →
      dspace__dist E sp xnt ynt g = Ok (k_dist E sp xd yd, g)
      ∧ dspace__norm E sp xnt g = Ok (k_norm E sp xd, g)
      ∧ dspace__inner E sp xnt ynt g = Ok (k_inner E sp xd yd, g)).
  { intros g sp mx spx xd my spy yd Hgx Hgy.
    unfold dspace__dist, dspace__norm, dspace__inner.
    repeat split;
      unfold mbind at 1, M_bind at 1;
      rewrite (ntuple_asarray_Some _ _ _ _ _ Hgx); try reflexivity;
      unfold mbind at 1, M_bind at 1;
      by rewrite (ntuple_asarray_Some _ _ _ _ _ Hgy). }
  split; [by apply Hpass|].
  intros mz spz zd mx spx xd my spy yd Hznt Hxnt Hynt.
  destruct (Hpass h d Hd Hz Hx Hy) as (-> & -> & -> & -> & ->).
  destruct (Hval h (dspace d) _ _ _ _ _ _ Hxnt Hynt) as (-> & -> & ->).
  split.
  { unfold dspace__lincomb, mbind at 1, M_bind at 1.
    rewrite (ntuple_asarray_Some _ _ _ _ _ Hxnt).
    unfold mbind at 1, M_bind at 1.
    rewrite (ntuple_asarray_Some _ _ _ _ _ Hynt).
    by apply (set_data_Some _ _ _ _ _ _ Hznt). }
  split.
  { unfold dspace__multiply, mbind at 1, M_bind at 1.
    rewrite (ntuple_asarray_Some _ _ _ _ _ Hxnt).
    unfold mbind at 1, M_bind at 1.
    rewrite (ntuple_asarray_Some _ _ _ _ _ Hynt).
    by apply (set_data_Some _ _ _ _ _ _ Hznt). }
  do 3 (split; [done|]).
  intros us Hsx Hsy Hsxnt Hsynt h2.
  assert (Hlt : self < length h) by (by eapply lookup_lt_Some).
  assert (Hd2 : h2 !! self = Some (ODiscr (with_uspace d us)))
    by (by apply list_lookup_insert_eq).
  assert (∀ l, self ≠ l → h2 !! l = h !! l) as Hother
    by (intros l Hl; by apply list_lookup_insert_ne).
  destruct (decide (self = z)) as [->|Hsz].
  { rewrite Hz in Hd. done. }
  destruct (Hpass h2 (with_uspace d us) Hd2) as (_ & _ & -> & -> & ->);
    [by rewrite Hother..|].
  apply (Hval h2 (dspace d) mx spx xd my spy yd); by rewrite Hother.
Qed.

Lemma linear_primitives_pass_through_witness :
  let E := Samples.sample_externals in
  let d := Samples.bare_discr in
  let nt data := ONtuple (Vector_mro Samples.Rn3) Samples.Rn3 data in
  let V n := OVector "Discretization.Vector" 0 n in
  let h := [ODiscr d; nt [0; 0; 0]%Z; V 1; nt [1; 2; 3]%Z; V 3;
            nt [10; 20; 30]%Z; V 5] in
  _lincomb E 0 2 2%Z 4 3%Z 6 h = Ok (tt, <[1 := nt [32; 64; 96]%Z]> h)
  ∧ _inner E 0 4 6 h = Ok (140%Z, h)
  ∧ _norm E 0 4 (<[0 := ODiscr (with_uspace d Samples.Cn3)]> h) =
      Ok (6%Z, <[0 := ODiscr (with_uspace d Samples.Cn3)]> h).
Proof.
  intros E d nt V h.
  destruct (linear_primitives_pass_through E 0 d h eq_refl) as [_ Hprim].
  destruct (Hprim 2 4 6 _ _ _ _ _ _ 1 3 5 2%Z 3%Z eq_refl eq_refl eq_refl)
    as [_ Hval].
  destruct (Hval _ _ [0; 0; 0]%Z _ _ [1; 2; 3]%Z _ _ [10; 20; 30]%Z
              eq_refl eq_refl eq_refl)
    as (Hlin & _ & _ & _ & Hinner & Hfree).
  split; [exact Hlin|]. split; [exact Hinner|].
  destruct (Hfree Samples.Cn3) as (_ & Hnorm & _); try discriminate.
  exact Hnorm.
Defined.

(** *** Construction: what is checked *)

Lemma check_restr_Ok us ds order restr :
  check_restr us ds order restr = Ok tt ↔
  ∀ r, restr = Some r → compatible r us ds order.
Proof.
  unfold check_restr, compatible. destruct restr as [r|]; [|naive_solver].
  split.
  - intros Hc r' [= <-].
    destruct (isinstance (op_mro r) "Operator"); [|done]. simpl in Hc.
    case_bool_decide as Hd; [|done]. case_bool_decide as Hr; [|done].
    simpl in Hc. do 3 (split; [done|]). intros o Ho. rewrite Ho in Hc.
    by case_bool_decide.
  - intros Hc. destruct (Hc r eq_refl) as (-> & Hd & Hr & Ho). simpl.
    rewrite !bool_decide_eq_true_2 by done. simpl.
    destruct (op_order r) as [o|]; [|done].
    by rewrite bool_decide_eq_true_2 by by apply Ho.
Qed.

Lemma check_ext_Ok us ds order ext :
  check_ext us ds order ext = Ok tt ↔
  ∀ e, ext = Some e → compatible e ds us order.
Proof.
  unfold check_ext, compatible. destruct ext as [e|]; [|naive_solver].
  split.
  - intros Hc e' [= <-].
    destruct (isinstance (op_mro e) "Operator"); [|done]. simpl in Hc.
    case_bool_decide as Hd; [|done]. case_bool_decide as Hr; [|done].
    simpl in Hc. do 3 (split; [done|]). intros o Ho. rewrite Ho in Hc.
    by case_bool_decide.
  - intros Hc. destruct (Hc e eq_refl) as (-> & Hd & Hr & Ho). simpl.
    rewrite !bool_decide_eq_true_2 by done. simpl.
    destruct (op_order e) as [o|]; [|done].
    by rewrite bool_decide_eq_true_2 by by apply Ho.
Qed.

(** X1. [RawDiscretization.__init__] succeeds exactly when [uspace] is a
    [Set], [dspace] an [NtuplesBase], the ordering (default 'C') is 'C'
    or 'F', and each operator that is given is an [Operator] between the
    two spaces in the right direction whose [order] attribute, if any, is
    that ordering; the object then stores the arguments, the ordering and
    the dimension and dtype of the data space. *)
Theorem RawDiscretization_construction cls us ds restr ext kwargs d :
  let order := default "C" (kwargs !! "order") in
  RawDiscretization__init__ cls us ds restr ext kwargs = Ok d ↔
  isinstance (sp_mro us) "Set" = true
  ∧ isinstance (sp_mro ds) "NtuplesBase" = true
  ∧ (order = "C" ∨ order = "F")
  ∧ (∀ r, restr = Some r → compatible r us ds order)
  ∧ (∀ e, ext = Some e → compatible e ds us order)
  ∧ d = MkDiscr cls (MkBase (sp_dim ds) (sp_dtype ds)) us ds restr ext order.
Proof.
  intros order. split.
  - intros Hi.
    apply RawDiscretization__init___Ok in Hi
      as (-> & HS & HN & Ho & Hr & He).
    do 2 (split; [done|]). split.
    { unfold str_in in Ho. apply bool_decide_eq_true in Ho.
      rewrite !elem_of_cons, elem_of_nil in Ho. fold order in Ho. tauto. }
    split; [by apply check_restr_Ok|]. split; [by apply check_ext_Ok|done].
  - intros (HS & HN & Ho & Hr & He & ->).
    unfold RawDiscretization__init__. rewrite HS, HN. simpl.
    fold order. rewrite str_in_true.
    2:{ rewrite !elem_of_cons. tauto. }
    simpl. apply check_restr_Ok in Hr. apply check_ext_Ok in He.
    by rewrite Hr, He.
Qed.

Lemma RawDiscretization_construction_witness :
  RawDiscretization__init__ ["RawDiscretization"; "NtuplesBase"; "Set"]
    Samples.L2_unit Samples.Rn3 (Some (Samples.collocation "F")) None
    {[ "order" := "F" ]} =
  Ok (MkDiscr ["RawDiscretization"; "NtuplesBase"; "Set"]
              (MkBase 3 "float64") Samples.L2_unit Samples.Rn3
              (Some (Samples.collocation "F")) None "F").
Proof.
  apply (RawDiscretization_construction
           ["RawDiscretization"; "NtuplesBase"; "Set"] Samples.L2_unit
           Samples.Rn3 (Some (Samples.collocation "F")) None
           {[ "order" := "F" ]}).
  split; [reflexivity|]. split; [reflexivity|].
  split; [right; reflexivity|].
  split.
  { intros r [= <-]. repeat split. by intros o [= <-]. }
  split; [discriminate|reflexivity].
Defined.

(** X2. [Discretization.__init__] succeeds exactly when the raw
    construction succeeds and, in addition, [uspace] is a [LinearSpace],
    [dspace] an [FnBase], the two spaces have the same field, and each
    operator that is given is a [LinearOperator]; it then yields the same
    object as the raw construction. *)
Theorem Discretization_construction cls us ds restr ext kwargs d :
  Discretization__init__ cls us ds restr ext kwargs = Ok d ↔
  RawDiscretization__init__ cls us ds restr ext kwargs = Ok d
  ∧ isinstance (sp_mro us) "LinearSpace" = true
  ∧ isinstance (sp_mro ds) "FnBase" = true
  ∧ (∃ f, sp_field us = Some f ∧ sp_field ds = Some f)
  ∧ (∀ r, restr = Some r → isinstance (op_mro r) "LinearOperator" = true)
  ∧ (∀ e, ext = Some e → isinstance (op_mro e) "LinearOperator" = true).
Proof.
  split.
  - intros Hi.
    destruct (Discretization__init___Ok _ _ _ _ _ _ _ Hi)
      as (Hraw & HL & HF & Hf).
    do 4 (split; [done|]).
    unfold Discretization__init__ in Hi. rewrite Hraw in Hi. simpl in Hi.
    rewrite HL, HF in Hi. simpl in Hi.
    destruct Hf as (f & Hu & Hd). unfold get_field in Hi.
    rewrite Hu, Hd in Hi. simpl in Hi.
    rewrite bool_decide_eq_true_2 in Hi by done. simpl in Hi.
    split.
    + intros r ->. simpl in Hi.
      by destruct (isinstance (op_mro r) "LinearOperator").
    + intros e ->.
      destruct restr as [r|]; simpl in Hi;
        [destruct (isinstance (op_mro r) "LinearOperator"); [|done]|];
        simpl in Hi; by destruct (isinstance (op_mro e) "LinearOperator").
  - intros (Hraw & HL & HF & (f & Hu & Hd) & Hr & He).
    unfold Discretization__init__. rewrite Hraw. simpl.
    rewrite HL, HF. simpl. unfold get_field. rewrite Hu, Hd. simpl.
    rewrite bool_decide_eq_true_2 by done. simpl.
    apply RawDiscretization__init___Ok in Hraw as (-> & _).
    destruct restr as [r|], ext as [e|]; simpl;
      rewrite ?(Hr _ eq_refl), ?(He _ eq_refl); reflexivity.
Qed.

Lemma Discretization_construction_witness :
  isinstance (sp_mro Samples.L2_unit) "LinearSpace" = true
  ∧ ∃ f, sp_field Samples.L2_unit = Some f ∧ sp_field Samples.Rn3 = Some f.
Proof.
  assert (Hi : Discretization__init__ Samples.Discretization_mro
                 Samples.L2_unit Samples.Rn3 None None ∅
               = Ok Samples.bare_discr) by reflexivity.
  destruct (proj1 (Discretization_construction Samples.Discretization_mro
                     Samples.L2_unit Samples.Rn3 None None ∅
                     Samples.bare_discr) Hi)
    as (_ & HL & _ & Hf & _).
  split; [exact HL|exact Hf].
Defined.

(** *** Equality of discretizations *)

Lemma bool_decide_sym `{EqDecision A} (a b : A) :
  bool_decide (a = b) = bool_decide (b = a).
Proof. apply bool_decide_ext. naive_solver. Qed.

(** [equals] is [RawDiscretization_equals] at the comparisons chosen for
    the missing code. *)
Lemma equals_RawDiscretization_equals d1 d2 :
  equals d1 d2
  = RawDiscretization_equals NtuplesBase_equals
      (λ a b, bool_decide (a = b)) (λ a b, bool_decide (a = b)) d1 d2.
Proof. reflexivity. Qed.

(** X3. [equals] is as symmetric as the comparisons it delegates to:
    when [super().equals] and the [==] of spaces and of operators do not
    depend on the order of their operands, [a.equals(b)] and
    [b.equals(a)] return the same boolean or raise the same exception.
    The method itself adds no asymmetry, although it reads the
    properties of [other] before those of [self]. *)
Theorem equals_symmetric super_equals space_eq operator_eq :
  (∀ a b, super_equals a b = super_equals b a) →
  (∀ s1 s2, space_eq s1 s2 = space_eq s2 s1) →
  (∀ o1 o2, operator_eq o1 o2 = operator_eq o2 o1) →
  ∀ d1 d2,
    RawDiscretization_equals super_equals space_eq operator_eq d1 d2
    = RawDiscretization_equals super_equals space_eq operator_eq d2 d1.
Proof.
  intros Hsuper Hspace Hop d1 d2.
  unfold RawDiscretization_equals, restriction, extension.
  rewrite (Hsuper d2 d1), (Hspace (uspace d1)), (Hspace (dspace d1)).
  destruct (super_equals d1 d2); [|done].
  destruct (space_eq (uspace d2) (uspace d1)); [|done].
  destruct (space_eq (dspace d2) (dspace d1)); [|done]. simpl.
  destruct (_restriction d1) as [r1|], (_restriction d2) as [r2|];
    try done. simpl.
  rewrite (Hop r1 r2).
  destruct (operator_eq r2 r1); [|done]. simpl.
  destruct (_extension d1) as [e1|], (_extension d2) as [e2|];
    try done. simpl.
  by rewrite (Hop e1 e2).
Qed.

Lemma equals_symmetric_witness :
  let same_class (a b : discretization) := bool_decide (d_mro a = d_mro b) in
  let space_eq (a b : space) := bool_decide (a = b) in
  let operator_eq (a b : operator) := bool_decide (a = b) in
  let d1 :=
    MkDiscr Samples.Discretization_mro (MkBase 3 "float64") Samples.L2_unit
            Samples.Rn3 (Some (Samples.collocation "C")) None "C" in
  let d2 := Samples.bare_discr in
  RawDiscretization_equals same_class space_eq operator_eq d1 d2
  = Raise (NotImplementedError "no restriction operator provided.")
  ∧ RawDiscretization_equals same_class space_eq operator_eq d2 d1
    = Raise (NotImplementedError "no restriction operator provided.").
Proof.
  intros same_class space_eq operator_eq d1 d2.
  assert (RawDiscretization_equals same_class space_eq operator_eq d1 d2
          = RawDiscretization_equals same_class space_eq operator_eq d2 d1)
    as Hsym.
  { apply equals_symmetric; intros; apply bool_decide_sym. }
  split; [rewrite Hsym|]; reflexivity.
Defined.

Lemma equals_true_iff_aux a b :
  equals a b = Ok true ↔
  dim a = dim b ∧ dtype a = dtype b
  ∧ uspace a = uspace b ∧ dspace a = dspace b
  ∧ ∃ r e, _restriction a = Some r ∧ _restriction b = Some r
           ∧ _extension a = Some e ∧ _extension b = Some e.
Proof.
  unfold equals, NtuplesBase_equals, restriction, extension. split.
  - intros He.
    repeat (case_bool_decide; simpl in He; [|done]).
    destruct (_restriction b) as [rb|]; [|done].
    destruct (_restriction a) as [ra|]; [|done]. simpl in He.
    case_bool_decide; [|done]. simpl in He.
    destruct (_extension b) as [eb|]; [|done].
    destruct (_extension a) as [ea|]; [|done]. simpl in He.
    case_bool_decide; [|done]. simplify_eq. eauto 10.
  - intros (Hd & Ht & Hu & Hs & r & e & -> & -> & -> & ->).
    rewrite !bool_decide_eq_true_2 by done. simpl.
    by rewrite !bool_decide_eq_true_2.
Qed.

(** X4. The outcomes of [equals], whatever the comparisons it delegates
    to answer. It returns [True] exactly when [super().equals], the two
    space comparisons and, both discretizations having both operators,
    the two operator comparisons answer [True]. It raises exactly when
    the first three comparisons answer [True] and an operator that is to
    be read is missing: one of the two restrictions, or, the
    restrictions being equal, one of the two extensions; what it raises
    is then the [NotImplementedError] of that property. So it never
    raises for two discretizations that have both operators. *)
Theorem equals_outcomes super_equals space_eq operator_eq self other :
  let eq := RawDiscretization_equals super_equals space_eq operator_eq in
  let spaces :=
    super_equals self other = true
    ∧ space_eq (uspace other) (uspace self) = true
    ∧ space_eq (dspace other) (dspace self) = true in
  (eq self other = Ok true ↔
   spaces
   ∧ ∃ ro rs eo es,
       _restriction other = Some ro ∧ _restriction self = Some rs
       ∧ operator_eq ro rs = true
       ∧ _extension other = Some eo ∧ _extension self = Some es
       ∧ operator_eq eo es = true)
  ∧ (is_Ok (eq self other) = false ↔
     spaces
     ∧ (_restriction other = None ∨ _restriction self = None
        ∨ ∃ ro rs,
            _restriction other = Some ro ∧ _restriction self = Some rs
            ∧ operator_eq ro rs = true
            ∧ (_extension other = None ∨ _extension self = None)))
  ∧ (∀ e, eq self other = Raise e →
          e = NotImplementedError "no restriction operator provided."
          ∨ e = NotImplementedError "no extension operator provided.")
  ∧ (∀ ro rs eo es,
       _restriction other = Some ro → _restriction self = Some rs →
       _extension other = Some eo → _extension self = Some es →
       is_Ok (eq self other) = true).
Proof.
  intros eq spaces. subst eq spaces.
  unfold RawDiscretization_equals, restriction, extension.
  split; [|split; [|split]].
  - split.
    + intros He.
      destruct (super_equals self other); [|done].
      destruct (space_eq (uspace other) (uspace self)); [|done].
      destruct (space_eq (dspace other) (dspace self)); [|done].
      simpl in He.
      destruct (_restriction other) as [ro|]; [|done].
      destruct (_restriction self) as [rs|]; [|done]. simpl in He.
      destruct (operator_eq ro rs) eqn:Hr; [|done]. simpl in He.
      destruct (_extension other) as [eo|]; [|done].
      destruct (_extension self) as [es|]; [|done]. simpl in He.
      simplify_eq. split; [done|]. by exists ro, rs, eo, es.
    + intros ((-> & -> & ->) & ro & rs & eo & es
              & -> & -> & Hr & -> & -> & He).
      simpl. by rewrite Hr, He.
  - split.
    + intros He.
      destruct (super_equals self other); [|done].
      destruct (space_eq (uspace other) (uspace self)); [|done].
      destruct (space_eq (dspace other) (dspace self)); [|done].
      simpl in He. split; [done|].
      destruct (_restriction other) as [ro|]; [|by left].
      destruct (_restriction self) as [rs|]; [|by right; left].
      simpl in He. right. right. exists ro, rs.
      destruct (operator_eq ro rs); [|done]. simpl in He.
      do 3 (split; [done|]).
      destruct (_extension other) as [eo|]; [|by left].
      destruct (_extension self) as [es|]; [|by right]. done.
    + intros ((-> & -> & ->) & [->|[->|(ro & rs & -> & -> & Hr & He)]]);
        simpl.
      * done.
      * by destruct (_restriction other).
      * rewrite Hr. simpl. destruct He as [->| ->]; [done|].
        by destruct (_extension other).
  - intros e He.
    destruct (super_equals self other); [|done].
    destruct (space_eq (uspace other) (uspace self)); [|done].
    destruct (space_eq (dspace other) (dspace self)); [|done].
    simpl in He.
    destruct (_restriction other) as [ro|];
      [|simpl in He; simplify_eq; by left].
    destruct (_restriction self) as [rs|];
      [|simpl in He; simplify_eq; by left].
    simpl in He. destruct (operator_eq ro rs); [|done]. simpl in He.
    destruct (_extension other) as [eo|];
      [|simpl in He; simplify_eq; by right].
    destruct (_extension self) as [es|];
      [|simpl in He; simplify_eq; by right].
    done.
  - intros ro rs eo es -> -> -> ->. simpl.
    destruct (super_equals self other); [|done].
    destruct (space_eq (uspace other) (uspace self)); [|done].
    destruct (space_eq (dspace other) (dspace self)); [|done]. simpl.
    by destruct (operator_eq ro rs).
Qed.

Lemma equals_outcomes_witness :
  let same_class (a b : discretization) := bool_decide (d_mro a = d_mro b) in
  let space_eq (a b : space) := bool_decide (a = b) in
  let operator_eq (a b : operator) := bool_decide (a = b) in
  let d :=
    MkDiscr Samples.Discretization_mro (MkBase 3 "float64") Samples.L2_unit
            Samples.Rn3 (Some (Samples.collocation "C"))
            (Some (Samples.interpolation "C")) "C" in
  RawDiscretization_equals same_class space_eq operator_eq d d = Ok true
  ∧ is_Ok (RawDiscretization_equals same_class space_eq operator_eq
             Samples.bare_discr Samples.bare_discr) = false.
Proof.
  intros same_class space_eq operator_eq d. split.
  - destruct (equals_outcomes same_class space_eq operator_eq d d)
      as (Htrue & _).
    apply Htrue. split; [done|].
    by exists (Samples.collocation "C"), (Samples.collocation "C"),
              (Samples.interpolation "C"), (Samples.interpolation "C").
  - destruct (equals_outcomes same_class space_eq operator_eq
                Samples.bare_discr Samples.bare_discr) as (_ & Hraise & _).
    apply Hraise. split; [done|]. by left.
Defined.

(** X5. The axis ordering is not compared: two discretizations built
    from the same spaces and operators (operators that pass both
    constructions, hence without an [order] attribute of their own), one
    with ordering 'C' and one with 'F', have different orderings and are
    equal for [equals]. *)
Theorem equals_ignores_order cls us ds r e dC dF :
  RawDiscretization__init__ cls us ds (Some r) (Some e) {[ "order" := "C" ]}
    = Ok dC →
  RawDiscretization__init__ cls us ds (Some r) (Some e) {[ "order" := "F" ]}
    = Ok dF →
  order dC ≠ order dF ∧ equals dC dF = Ok true
  ∧ op_order r = None ∧ op_order e = None.
Proof.
  intros HC HF.
  apply RawDiscretization__init___Ok in HC as (-> & _ & _ & _ & HrC & HeC).
  apply RawDiscretization__init___Ok in HF as (-> & _ & _ & _ & HrF & HeF).
  pose proof (proj1 (check_restr_Ok _ _ _ _) HrC r eq_refl)
    as (_ & _ & _ & HoC).
  pose proof (proj1 (check_restr_Ok _ _ _ _) HrF r eq_refl)
    as (_ & _ & _ & HoF).
  pose proof (proj1 (check_ext_Ok _ _ _ _) HeC e eq_refl)
    as (_ & _ & _ & HpC).
  pose proof (proj1 (check_ext_Ok _ _ _ _) HeF e eq_refl)
    as (_ & _ & _ & HpF).
  clear HrC HrF HeC HeF.
  rewrite lookup_singleton_eq in *. simpl in *.
  split; [done|]. split.
  { apply equals_true_iff_aux. repeat split. by eexists _, _. }
  split.
  - destruct (op_order r) as [o|]; [|done].
    specialize (HoC o eq_refl). specialize (HoF o eq_refl). congruence.
  - destruct (op_order e) as [o|]; [|done].
    specialize (HpC o eq_refl). specialize (HpF o eq_refl). congruence.
Qed.

Lemma equals_ignores_order_witness :
  let r := Operator "R" ["Operator"] Samples.L2_unit Samples.Rn3 None in
  let e := Operator "E" ["Operator"] Samples.Rn3 Samples.L2_unit None in
  let d o :=
    MkDiscr ["RawDiscretization"] (MkBase 3 "float64") Samples.L2_unit
            Samples.Rn3 (Some r) (Some e) o in
  order (d "C") ≠ order (d "F") ∧ equals (d "C") (d "F") = Ok true.
Proof.
  intros r e d.
  destruct (equals_ignores_order ["RawDiscretization"] Samples.L2_unit
              Samples.Rn3 r e (d "C") (d "F")) as (Hne & Heq & _);
    [reflexivity|reflexivity|].
  split; [exact Hne|exact Heq].
Defined.

(** *** Wrappers are well formed *)

Lemma keeps_refl o : keeps o o.
Proof. destruct o; simpl; eauto. Qed.

Lemma keeps_trans o1 o2 o3 : keeps o1 o2 → keeps o2 o3 → keeps o1 o3.
Proof.
  destruct o1 as [d|mro sp old|cls sl nl]; simpl;
    [by intros ->| |by intros ->].
  intros [new ->]. simpl. done.
Qed.

Lemma keeps_mro o o' : keeps o o' → obj_mro o' = obj_mro o.
Proof. destruct o; simpl; [by intros ->| |by intros ->]. by intros [? ->]. Qed.

Lemma stable_refl h : stable h h.
Proof. intros l o Hl. exists o. split; [done|apply keeps_refl]. Qed.

Lemma stable_trans h1 h2 h3 : stable h1 h2 → stable h2 h3 → stable h1 h3.
Proof.
  intros H12 H23 l o Hl.
  destruct (H12 l o Hl) as (o2 & Hl2 & Hk2).
  destruct (H23 l o2 Hl2) as (o3 & Hl3 & Hk3).
  exists o3. split; [done|]. by eapply keeps_trans.
Qed.

Lemma wf_vector_stable h h' cls space ntuple :
  stable h h' → wf_vector h cls space ntuple → wf_vector h' cls space ntuple.
Proof.
  intros Hst (d & o & Hs & Hraw & Hlin & Hn & Hinst).
  destruct (Hst _ _ Hs) as (od & Hs' & Hkd). simpl in Hkd. subst od.
  destruct (Hst _ _ Hn) as (o' & Hn' & Hko).
  exists d, o'. repeat (split; [done|]).
  by rewrite (keeps_mro _ _ Hko).
Qed.

Lemma ext_ok_refl h : ext_ok h h.
Proof. split; [apply stable_refl|]. intros. by left. Qed.

Lemma ext_ok_trans h1 h2 h3 : ext_ok h1 h2 → ext_ok h2 h3 → ext_ok h1 h3.
Proof.
  intros [S12 N12] [S23 N23]. split; [by eapply stable_trans|].
  intros x cls space ntuple Hx.
  destruct (N23 _ _ _ _ Hx) as [Hx2|Hwf]; [|by right].
  destruct (N12 _ _ _ _ Hx2) as [Hx1|Hwf]; [by left|].
  right. by eapply wf_vector_stable.
Qed.

Lemma ext_ok_wf h h' : ext_ok h h' → wf_heap h → wf_heap h'.
Proof.
  intros [Hst Hnew] Hwf x cls space ntuple Hx.
  destruct (Hnew _ _ _ _ Hx) as [Hold|Hok]; [|done].
  eapply wf_vector_stable; [done|]. by eapply Hwf.
Qed.

Lemma stable_app (h : heap) (o : obj) : stable h (h ++ [o]).
Proof.
  intros l o' Hl. exists o'. split; [|apply keeps_refl].
  rewrite lookup_app_l; [done|]. by eapply lookup_lt_Some.
Qed.

Lemma lookup_snoc_inv (h : heap) (o o' : obj) x :
  (h ++ [o]) !! x = Some o' → h !! x = Some o' ∨ (x = length h ∧ o' = o).
Proof.
  intros Hx. destruct (decide (x < length h)) as [Hlt|Hge].
  - left. by rewrite lookup_app_l in Hx.
  - right. rewrite lookup_app_r in Hx by lia.
    destruct (x - length h) as [|n] eqn:Hn; simpl in Hx.
    + simplify_eq. split; [lia|done].
    + by destruct n.
Qed.

Lemma ext_ok_app_other (h : heap) (o : obj) :
  (∀ cls space ntuple, o ≠ OVector cls space ntuple) → ext_ok h (h ++ [o]).
Proof.
  intros Ho. split; [apply stable_app|].
  intros x cls space ntuple Hx.
  destruct (lookup_snoc_inv _ _ _ _ Hx) as [Hold|[_ Heq]]; [by left|].
  by destruct (Ho cls space ntuple).
Qed.

Lemma tidy_ret {A} (a : A) : tidy (mret a).
Proof. intros h a' h' [= <- <-]. apply ext_ok_refl. Qed.

Lemma tidy_bind {A B} (m : M A) (f : A → M B) :
  tidy m → (∀ a, tidy (f a)) → tidy (m ≫= f).
Proof.
  intros Hm Hf h b h' Hrun. unfold mbind, M_bind in Hrun.
  destruct (m h) as [[a h1]|e] eqn:Hmh; [|done].
  eapply ext_ok_trans; [by eapply Hm|by eapply Hf].
Qed.

Lemma tidy_raise {A} e : tidy (raise e : M A).
Proof. intros h a h' Hrun. discriminate. Qed.

Lemma tidy_lift {A} (r : result A) : tidy (lift r).
Proof.
  intros h a h' Hrun. destruct r; simplify_eq/=. apply ext_ok_refl.
Qed.

Lemma tidy_get_state : tidy get_state.
Proof. intros h a h' [= <- <-]. apply ext_ok_refl. Qed.

Lemma tidy_get_discr l : tidy (get_discr l).
Proof.
  intros h a h' Hrun. unfold get_discr in Hrun.
  repeat case_match; simplify_eq. apply ext_ok_refl.
Qed.

Lemma tidy_get_vector l : tidy (get_vector l).
Proof.
  intros h a h' Hrun. unfold get_vector in Hrun.
  repeat case_match; simplify_eq. apply ext_ok_refl.
Qed.

Lemma tidy_get_ntuple l : tidy (get_ntuple l).
Proof.
  intros h a h' Hrun. unfold get_ntuple in Hrun.
  repeat case_match; simplify_eq. apply ext_ok_refl.
Qed.

Lemma tidy_alloc_ntuple mro sp data : tidy (alloc (ONtuple mro sp data)).
Proof. intros h a h' [= <- <-]. by apply ext_ok_app_other. Qed.

Lemma tidy_set_data l data : tidy (set_data l data).
Proof.
  intros h a h' Hrun. unfold set_data in Hrun.
  destruct (h !! l) as [[| mro sp old |]|] eqn:Hl; simplify_eq.
  assert (Hlt : l < length h) by (by eapply lookup_lt_Some).
  split.
  - intros l' o Hl'. destruct (decide (l = l')) as [<-|Hne].
    + rewrite list_lookup_insert_eq by done. simplify_eq.
      eexists. split; [done|]. simpl. eauto.
    + rewrite list_lookup_insert_ne by done.
      exists o. split; [done|apply keeps_refl].
  - intros x cls space ntuple Hx. left.
    destruct (decide (l = x)) as [<-|Hne].
    + rewrite list_lookup_insert_eq in Hx by done. done.
    + by rewrite list_lookup_insert_ne in Hx.
Qed.

Lemma Vector__init___wf cls space ntuple h v h' :
  Vector__init__ cls space ntuple h = Ok (v, h') →
  ∃ nt, ntuple = VRef nt ∧ h' = h ++ [OVector cls space nt]
        ∧ wf_vector h cls space nt.
Proof.
  unfold Vector__init__, mbind, M_bind, get_state, get_discr, raise, alloc.
  intros Hrun.
  destruct (h !! space) as [[d| |]|] eqn:Hs; simpl in Hrun;
    try (by repeat (case_match; simplify_eq/=)).
  destruct (bool_decide (cls = "Discretization.Vector")
            && negb (isinstance (d_mro d) "Discretization")) eqn:Hlin;
    [done|].
  destruct (isinstance (d_mro d) "RawDiscretization") eqn:Hraw; [|done].
  simpl in Hrun.
  destruct ntuple as [|nt| | |]; rewrite ?Hs in Hrun; simpl in Hrun;
    try done.
  destruct (h !! nt) as [o|] eqn:Hn; simpl in Hrun; [|done].
  destruct (isinstance (obj_mro o) (sp_Vector (dspace d))) eqn:Hinst;
    [|done].
  simpl in Hrun. simplify_eq. exists nt. do 2 (split; [done|]).
  exists d, o. repeat (split; [done|]). split; [|done].
  intros ->. rewrite bool_decide_eq_true_2 in Hlin by done.
  simpl in Hlin. by apply negb_false_iff in Hlin.
Qed.

Lemma tidy_Vector__init__ cls space ntuple :
  tidy (Vector__init__ cls space ntuple).
Proof.
  intros h v h' Hrun.
  apply Vector__init___wf in Hrun as (nt & -> & -> & Hwf).
  split; [apply stable_app|].
  intros x c s n Hx.
  destruct (lookup_snoc_inv _ _ _ _ Hx) as [Hold|[_ Heq]]; [by left|].
  right. simplify_eq. eapply wf_vector_stable; [apply stable_app|done].
Qed.

Ltac tidy_step :=
  first
    [ apply tidy_ret
    | apply tidy_raise
    | apply tidy_lift
    | apply tidy_get_state
    | apply tidy_get_discr
    | apply tidy_get_vector
    | apply tidy_get_ntuple
    | apply tidy_set_data
    | apply tidy_alloc_ntuple
    | apply tidy_Vector__init__
    | apply tidy_bind; [|intros]
    | progress (repeat match goal with p : _ * _ |- _ => destruct p end)
    | case_match ].

Ltac tidy := repeat tidy_step.

Lemma tidy_element E self inp : tidy (element E self inp).
Proof.
  unfold element, op_call, dspace_element, dspace_zero. tidy.
Qed.

Lemma tidy_ntuple_setitem l ix v : tidy (ntuple_setitem l ix v).
Proof. unfold ntuple_setitem, ntuple_setitem_data. tidy. Qed.

Lemma step_ext_ok E h h' : step E h h' → ext_ok h h'.
Proof.
  destruct 1 as
    [cls us ds restr ext kwargs d h Hi | cls us ds restr ext kwargs d h Hi
    | self inp v h h' Hr | x v h h' Hr | x a h h' Hr | x other b h h' Hr
    | x ix a h h' Hr | x ix v h h' Hr | self v h h' Hr
    | self z a x b y h h' Hr | self x y r h h' Hr | self x r h h' Hr
    | self x y r h h' Hr | self z x y h h' Hr ].
  - by apply ext_ok_app_other.
  - by apply ext_ok_app_other.
  - by eapply tidy_element.
  - revert Hr. apply (λ H, H h v h').
    unfold Vector_copy, ntuple_copy.
    repeat first [ apply tidy_element | tidy_step ].
  - revert Hr. apply (λ H, H h a h').
    unfold Vector_asarray, ntuple_asarray. tidy.
  - revert Hr. apply (λ H, H h b h').
    unfold Vector_equals, ntuple_equals. tidy.
  - revert Hr. apply (λ H, H h a h').
    unfold Vector__getitem__, ntuple_getitem. tidy.
  - revert Hr. apply (λ H, H h tt h').
    unfold Vector__setitem__.
    repeat first [ apply tidy_ntuple_setitem | tidy_step ].
  - revert Hr. apply (λ H, H h v h'). unfold zero, dspace_zero. tidy.
  - revert Hr. apply (λ H, H h tt h').
    unfold _lincomb, dspace__lincomb, ntuple_asarray. tidy.
  - revert Hr. apply (λ H, H h r h').
    unfold _dist, dspace__dist, ntuple_asarray. tidy.
  - revert Hr. apply (λ H, H h r h').
    unfold _norm, dspace__norm, ntuple_asarray. tidy.
  - revert Hr. apply (λ H, H h r h').
    unfold _inner, dspace__inner, ntuple_asarray. tidy.
  - revert Hr. apply (λ H, H h tt h').
    unfold _multiply, dspace__multiply, ntuple_asarray. tidy.
Qed.

(** X6. In every heap reached from the empty one by constructions and
    method calls, each element wrapper refers to a discretization that is
    a [RawDiscretization] (a [Discretization] for a
    [Discretization.Vector]) and wraps an object whose class derives from
    the [Vector] class of that discretization's data space: the type
    checks of the wrapper constructors hold for every wrapper ever
    produced by [element], [zero] or [copy], and later calls keep them. *)
Theorem wrappers_well_formed E h :
  rtc (step E) [] h → wf_heap h.
Proof.
  intros Hreach. apply (ext_ok_wf []).
  - induction Hreach as [h|h1 h2 h3 Hstep _ IH]; [apply ext_ok_refl|].
    eapply ext_ok_trans; [by eapply step_ext_ok|done].
  - intros x cls space ntuple Hx. done.
Qed.

Lemma wrappers_well_formed_witness :
  let d := Samples.bare_discr in
  let h := [ODiscr d;
            ONtuple (Vector_mro Samples.Rn3) Samples.Rn3 [0; 0; 0]%Z;
            OVector "Discretization.Vector" 0 1] in
  wf_vector h "Discretization.Vector" 0 1.
Proof.
  intros d h.
  assert (Hreach : rtc (step Samples.sample_externals) [] h).
  { eapply rtc_l;
      [apply (step_Discretization Samples.sample_externals
                Samples.Discretization_mro Samples.L2_unit Samples.Rn3
                None None ∅ d []); reflexivity|].
    apply rtc_once.
    apply (step_element Samples.sample_externals 0 VNone 2 [ODiscr d] h).
    reflexivity. }
  exact (wrappers_well_formed Samples.sample_externals h Hreach 2
           "Discretization.Vector" 0 1 eq_refl).
Defined.

(** *** Wrapping by reference, assignment, comparison *)

(** X7. An element made from a member [nt] of the data space shares its
    storage: the call allocates the wrapper only, and reading the
    wrapper ([asarray], indexing) or assigning through it is reading or
    assigning the object [nt] itself. *)
Theorem element_shares_storage E self d nt h v h' :
  h !! self = Some (ODiscr d) →
  contains E (dspace d) h (VRef nt) = true →
  element E self (VRef nt) h = Ok (v, h') →
  h' = h ++ [OVector (Vector_class d) self nt]
  ∧ Vector_asarray v h' = ntuple_asarray nt h'
  ∧ (∀ ix, Vector__getitem__ v ix h' = ntuple_getitem nt ix h')
  ∧ (∀ ix val,
       isinstance_value h' val "RawDiscretization.Vector" = false →
       Vector__setitem__ v ix val h' = ntuple_setitem nt ix val h').
Proof.
  intros Hd Hin Hrun.
  rewrite (element_cases E self d h Hd), Hin in Hrun.
  apply Vector__init___Ok in Hrun as (nt' & [= <-] & -> & ->).
  assert (Hv : (h ++ [OVector (Vector_class d) self nt]) !! length h
               = Some (OVector (Vector_class d) self nt))
    by (by apply list_lookup_middle).
  split; [done|]. split; [|split].
  - unfold Vector_asarray, mbind at 1, M_bind at 1.
    by rewrite (get_vector_Some _ _ _ _ _ Hv).
  - intros ix. unfold Vector__getitem__, mbind at 1, M_bind at 1.
    by rewrite (get_vector_Some _ _ _ _ _ Hv).
  - intros ix val Hval.
    unfold Vector__setitem__, mbind at 1, M_bind at 1, get_state.
    rewrite Hval. unfold mbind at 1, M_bind at 1.
    by rewrite (get_vector_Some _ _ _ _ _ Hv).
Qed.

Lemma element_shares_storage_witness :
  let E := Samples.sample_externals in
  let d := Samples.bare_discr in
  let h := [ODiscr d;
            ONtuple (Vector_mro Samples.Rn3) Samples.Rn3 [1; 2; 3]%Z] in
  let h' := h ++ [OVector "Discretization.Vector" 0 1] in
  Vector__setitem__ 2 (Idx 1) (VNum 7) h' =
    Ok (tt, <[1 := ONtuple (Vector_mro Samples.Rn3) Samples.Rn3
                           [1; 7; 3]%Z]> h').
Proof.
  intros E d h h'.
  destruct (element_shares_storage E 0 d 1 h 2 h')
    as (_ & _ & _ & Hset); [reflexivity|reflexivity|reflexivity|].
  rewrite Hset; reflexivity.
Defined.

(** X8. Assigning an element to entries of an element is assigning its
    n-tuple: for wrappers [x] and [y], [x[ix] = y] runs the data-space
    assignment [x.ntuple[ix] = y.ntuple], and so has the effect of
    [x[ix] = y.ntuple]. *)
Theorem setitem_unwraps_elements x y cx sx xnt dy sy ynt mro sp data ix h :
  h !! x = Some (OVector cx sx xnt) →
  h !! y = Some (OVector (Vector_class dy) sy ynt) →
  h !! ynt = Some (ONtuple mro sp data) →
  isinstance mro "RawDiscretization.Vector" = false →
  Vector__setitem__ x ix (VRef y) h = ntuple_setitem xnt ix (VRef ynt) h
  ∧ Vector__setitem__ x ix (VRef y) h = Vector__setitem__ x ix (VRef ynt) h.
Proof.
  intros Hx Hy Hynt Hmro.
  assert (Vector__setitem__ x ix (VRef y) h
          = ntuple_setitem xnt ix (VRef ynt) h) as Hy_eq.
  { unfold Vector__setitem__, mbind at 1, M_bind at 1, get_state.
    unfold isinstance_value. rewrite Hy.
    assert (isinstance (obj_mro (OVector (Vector_class dy) sy ynt))
                       "RawDiscretization.Vector" = true) as ->.
    { unfold Vector_class.
      by destruct (isinstance (d_mro dy) "Discretization"). }
    unfold mbind at 1, M_bind at 1.
    rewrite (get_vector_Some _ _ _ _ _ Hx).
    unfold mbind at 1, M_bind at 1.
    by rewrite (get_vector_Some _ _ _ _ _ Hy). }
  split; [done|]. rewrite Hy_eq.
  unfold Vector__setitem__, mbind at 1, M_bind at 1, get_state.
  unfold isinstance_value. rewrite Hynt.
  change (obj_mro (ONtuple mro sp data)) with mro. rewrite Hmro.
  unfold mbind at 1, M_bind at 1.
  by rewrite (get_vector_Some _ _ _ _ _ Hx).
Qed.

Lemma setitem_unwraps_elements_witness :
  let nt data := ONtuple (Vector_mro Samples.Rn3) Samples.Rn3 data in
  let V n := OVector "Discretization.Vector" 0 n in
  let h := [ODiscr Samples.bare_discr; nt [1; 2; 3]%Z; V 1;
            nt [7; 8; 9]%Z; V 3] in
  Vector__setitem__ 2 (Slice 0 3) (VRef 4) h =
    Ok (tt, <[1 := nt [7; 8; 9]%Z]> h).
Proof.
  intros nt V h.
  destruct (setitem_unwraps_elements 2 4 "Discretization.Vector" 0 1
              Samples.bare_discr 0 3 (Vector_mro Samples.Rn3) Samples.Rn3
              [7; 8; 9]%Z (Slice 0 3) h) as [-> _]; reflexivity.
Defined.

(** X9. Comparing an element with anything that is not an element of
    exactly the same class answers [False], without an exception and
    without a change of the heap: this holds for [None], numbers,
    sequences, abstract elements, n-tuples, discretizations and elements
    of another wrapper class. *)
Theorem Vector_equals_other_types x cls sl nt other h :
  h !! x = Some (OVector cls sl nt) →
  (∀ ol cls' sl' nt',
     other = VRef ol → h !! ol = Some (OVector cls' sl' nt') → cls' ≠ cls) →
  Vector_equals x other h = Ok (false, h).
Proof.
  intros Hx Hother.
  unfold Vector_equals, mbind at 1, M_bind at 1.
  rewrite (get_vector_Some _ _ _ _ _ Hx).
  unfold mbind at 1, M_bind at 1, get_state.
  destruct other as [|ol| | |]; try done.
  destruct (h !! ol) as [[| |cls' sl' nt']|] eqn:Hol; try done.
  rewrite bool_decide_eq_false_2; [done|]. by eapply Hother.
Qed.

Lemma Vector_equals_other_types_witness :
  let nt := ONtuple (Vector_mro Samples.Rn3) Samples.Rn3 [1; 2; 3]%Z in
  let h := [ODiscr Samples.bare_discr; nt;
            OVector "Discretization.Vector" 0 1;
            OVector "RawDiscretization.Vector" 0 1] in
  Vector_equals 2 (VRef 3) h = Ok (false, h)
  ∧ Vector_equals 2 (VRef 1) h = Ok (false, h).
Proof.
  intros nt h. split.
  - apply (Vector_equals_other_types 2 "Discretization.Vector" 0 1);
      [reflexivity|].
    intros ol cls' sl' nt' [= <-] [= <- _ _]. discriminate.
  - apply (Vector_equals_other_types 2 "Discretization.Vector" 0 1);
      [reflexivity|].
    intros ol cls' sl' nt' [= <-] Hol. discriminate.
Defined.

(** *** The resolver outside its table *)

(** X10. For a template space whose field is of a class other than
    [RealNumbers] and [ComplexNumbers], a recognized and available
    backend finds no key in its table: the lookup ends in [KeyError]
    (not in the [NotImplementedError] of an entry that is [None]). *)
Theorem dspace_type_unknown_field cuda sp impl c :
  sp_field sp = Some c → c ≠ "RealNumbers" → c ≠ "ComplexNumbers" →
  impl = "numpy" ∨ (impl = "cuda" ∧ cuda = true) →
  dspace_type cuda sp impl = Raise (KeyError "field_type").
Proof.
  intros Hf Hr Hc Himpl.
  assert (∀ (a b c' : option space_type),
            ({[ Some "RealNumbers" := a; Some "ComplexNumbers" := b;
                None := c' ]} : gmap (option string) (option space_type))
              !! Some c = None) as Hrow.
  { intros a b c'. rewrite !lookup_insert_ne by congruence.
    by rewrite lookup_singleton_ne. }
  unfold dspace_type, field_type. rewrite Hf.
  destruct Himpl as [->|[-> ->]].
  - change (str_in "numpy" ["numpy"; "cuda"]) with true. simpl negb.
    cbv iota. change (bool_decide ("numpy" = "cuda")) with false.
    simpl andb. cbv iota. unfold spacetype_map.
    rewrite lookup_insert_eq. by rewrite Hrow.
  - change (str_in "cuda" ["numpy"; "cuda"]) with true. simpl negb.
    cbv iota. change (bool_decide ("cuda" = "cuda")) with true.
    simpl andb. cbv iota. unfold spacetype_map.
    rewrite lookup_insert_ne by done. rewrite lookup_singleton_eq.
    by rewrite Hrow.
Qed.

Lemma dspace_type_unknown_field_witness :
  dspace_type true
    (Space "Zn(3)" ["Fn"; "FnBase"; "NtuplesBase"; "LinearSpace"; "Set"]
           "Fn.Vector" [] 3 "int64" (Some "Integers")) "cuda"
  = Raise (KeyError "field_type").
Proof.
  apply (dspace_type_unknown_field true _ "cuda" "Integers");
    [reflexivity|discriminate|discriminate|by right].
Defined.

End DiscrFacts.

(** ** Properties of odl/discr/default.py *)

Module DefaultFacts.
Import Py Discr Default.

(** C3, the claim as stated, at the kind "linear": construction of a
    [DiscreteL2] over an L2 space is rejected by the membership test in
    [_supported_interp] with [ValueError]; [NotImplementedError] is not
    what is raised. *)
Lemma linear_is_not_NotImplemented :
  DiscreteL2__init__ unit Samples.sample_GridCollocation
    Samples.sample_NearestInterpolation Samples.L2_unit tt Samples.Rn3
    "linear" ∅ =
    Raise (ValueError "{} is not among the supported interpolationtypes {}.")
  ∧ ∀ msg,
      DiscreteL2__init__ unit Samples.sample_GridCollocation
        Samples.sample_NearestInterpolation Samples.L2_unit tt Samples.Rn3
        "linear" ∅ ≠ Raise (NotImplementedError msg).
Proof. split; [reflexivity|]. intros msg. discriminate. Qed.

(** C3, amended. Over an L2 space, every interpolation kind other than
    "nearest" (the kind "linear" included) is rejected with the
    [ValueError] of the supported-kinds test, and no kind is answered
    with [NotImplementedError] by the constructor itself; for "nearest"
    the construction goes on with the collocation operator as restriction
    and the nearest-neighbour interpolation as extension, which the
    resulting discretization carries. *)
Theorem DiscreteL2_interp_kinds (grid : Type) GC NI l2space (g : grid)
    dspace interp kwargs :
  isinstance (sp_mro l2space) "L2" = true →
  let order := default "C" (kwargs !! "order") in
  (interp ≠ "nearest" →
     DiscreteL2__init__ grid GC NI l2space g dspace interp kwargs =
       Raise (ValueError
                "{} is not among the supported interpolationtypes {}."))
  ∧ (interp = "nearest" →
       DiscreteL2__init__ grid GC NI l2space g dspace interp kwargs =
         (restriction ← GC l2space g dspace order;
          extension ← NI l2space g dspace order;
          Discretization__init__ DiscreteL2_mro l2space dspace
                                 (Some restriction) (Some extension) ∅)
       ∧ ∀ d,
           DiscreteL2__init__ grid GC NI l2space g dspace interp kwargs
             = Ok d →
           ∃ restr ext,
             GC l2space g dspace order = Ok restr
             ∧ NI l2space g dspace order = Ok ext
             ∧ _restriction d = Some restr ∧ _extension d = Some ext).
Proof.
  intros HL2 order. unfold DiscreteL2__init__. rewrite HL2. simpl.
  split.
  - intros Hne. unfold str_in, _supported_interp.
    rewrite bool_decide_eq_false_2; [done|].
    rewrite list_elem_of_singleton. done.
  - intros ->. split; [reflexivity|].
    change (str_in "nearest" _supported_interp) with true. simpl.
    fold order. intros d Hrun.
    destruct (GC l2space g dspace order) as [restr|]; [|done].
    simpl in Hrun.
    destruct (NI l2space g dspace order) as [ext|]; [|done].
    simpl in Hrun. exists restr, ext. do 2 (split; [done|]).
    apply DiscrFacts.Discretization__init___Ok in Hrun as (Hraw & _).
    by apply DiscrFacts.RawDiscretization__init___Ok in Hraw as (-> & _).
Qed.

Lemma DiscreteL2_interp_kinds_witness :
  DiscreteL2__init__ unit Samples.sample_GridCollocation
    Samples.sample_NearestInterpolation Samples.L2_unit tt Samples.Rn3
    "cubic" ∅ =
    Raise (ValueError "{} is not among the supported interpolationtypes {}.")
  ∧ DiscreteL2__init__ unit Samples.sample_GridCollocation
      Samples.sample_NearestInterpolation Samples.L2_unit tt Samples.Rn3
      "nearest" ∅ =
    Ok (MkDiscr DiscreteL2_mro (MkBase 3 "float64") Samples.L2_unit
                Samples.Rn3 (Some (Samples.collocation "C"))
                (Some (Samples.interpolation "C")) "C").
Proof.
  split.
  - apply (DiscreteL2_interp_kinds unit Samples.sample_GridCollocation
             Samples.sample_NearestInterpolation Samples.L2_unit tt
             Samples.Rn3 "cubic" ∅); [reflexivity|discriminate].
  - destruct (DiscreteL2_interp_kinds unit Samples.sample_GridCollocation
                Samples.sample_NearestInterpolation Samples.L2_unit tt
                Samples.Rn3 "nearest" ∅ eq_refl) as [_ Hnear].
    destruct (Hnear eq_refl) as [-> _]. reflexivity.
Defined.

(** *** What a constructed [DiscreteL2] looks like *)

Lemma DiscreteL2__init___Ok (grid : Type) GC NI l2space (g : grid) dspace
    interp kwargs d :
  DiscreteL2__init__ grid GC NI l2space g dspace interp kwargs = Ok d →
  isinstance (sp_mro l2space) "L2" = true ∧ interp = "nearest"
  ∧ ∃ restr ext,
      GC l2space g dspace (default "C" (kwargs !! "order")) = Ok restr
      ∧ NI l2space g dspace (default "C" (kwargs !! "order")) = Ok ext
      ∧ Discretization__init__ DiscreteL2_mro l2space dspace
          (Some restr) (Some ext) ∅ = Ok d.
Proof.
  unfold DiscreteL2__init__. intros Hi.
  destruct (isinstance (sp_mro l2space) "L2"); [|done]. simpl in Hi.
  unfold str_in, _supported_interp in Hi.
  case_bool_decide as Hin; [|done].
  apply list_elem_of_singleton in Hin as ->. simpl in Hi.
  destruct (GC _ _ _ _) as [restr|]; [|done]. simpl in Hi.
  rewrite ?bool_decide_eq_true_2 in Hi by done.
  destruct (NI _ _ _ _) as [ext|]; [|done]. simpl in Hi.
  do 2 (split; [done|]). by exists restr, ext.
Qed.

(** X11. The ordering given to [DiscreteL2] reaches the two operators
    but not the parent constructor: every [DiscreteL2] that is
    constructed has ordering 'C', and its operators carry no other
    [order]. So a construction with [order='F'] whose operators take
    that ordering as their [order] attribute never succeeds. *)
Theorem DiscreteL2_order_is_C (grid : Type) GC NI l2space (g : grid)
    dspace interp kwargs d :
  DiscreteL2__init__ grid GC NI l2space g dspace interp kwargs = Ok d →
  order d = "C"
  ∧ ∃ restr ext,
      _restriction d = Some restr ∧ _extension d = Some ext
      ∧ GC l2space g dspace (default "C" (kwargs !! "order")) = Ok restr
      ∧ NI l2space g dspace (default "C" (kwargs !! "order")) = Ok ext
      ∧ (∀ o, op_order restr = Some o → o = "C")
      ∧ (∀ o, op_order ext = Some o → o = "C")
      ∧ (op_order restr = Some (default "C" (kwargs !! "order")) →
         kwargs !! "order" = None ∨ kwargs !! "order" = Some "C").
Proof.
  intros Hi.
  apply DiscreteL2__init___Ok in Hi as (_ & _ & restr & ext & HG & HN & Hi).
  apply DiscrFacts.Discretization__init___Ok in Hi as (Hraw & _).
  apply DiscrFacts.RawDiscretization__init___Ok in Hraw
    as (-> & _ & _ & _ & Hr & He).
  pose proof (proj1 (DiscrFacts.check_restr_Ok _ _ _ _) Hr restr eq_refl)
    as (_ & _ & _ & Hor).
  pose proof (proj1 (DiscrFacts.check_ext_Ok _ _ _ _) He ext eq_refl)
    as (_ & _ & _ & Hoe).
  clear Hr He. rewrite lookup_empty in *. simpl in Hor, Hoe.
  split; [done|]. exists restr, ext. do 6 (split; [done|]).
  intros Ho. specialize (Hor _ Ho).
  destruct (kwargs !! "order") as [o|]; [|by left].
  right. simpl in Hor. by subst o.
Qed.

Lemma DiscreteL2_order_is_C_witness :
  ∃ d,
    DiscreteL2__init__ unit Samples.sample_GridCollocation
      Samples.sample_NearestInterpolation Samples.L2_unit tt Samples.Rn3
      "nearest" {[ "order" := "C" ]} = Ok d
    ∧ order d = "C".
Proof.
  assert (∃ d,
    DiscreteL2__init__ unit Samples.sample_GridCollocation
      Samples.sample_NearestInterpolation Samples.L2_unit tt Samples.Rn3
      "nearest" {[ "order" := "C" ]} = Ok d) as [d Hd]
    by (eexists; reflexivity).
  exists d. split; [exact Hd|].
  exact (proj1 (DiscreteL2_order_is_C unit Samples.sample_GridCollocation
                  Samples.sample_NearestInterpolation Samples.L2_unit tt
                  Samples.Rn3 "nearest" {[ "order" := "C" ]} d Hd)).
Defined.

(** X12. A constructed [DiscreteL2] always has both operators: its
    [restriction] and [extension] properties do not raise, and it is
    equal to itself for [equals]. *)
Theorem DiscreteL2_equals_itself (grid : Type) GC NI l2space (g : grid)
    dspace interp kwargs d :
  DiscreteL2__init__ grid GC NI l2space g dspace interp kwargs = Ok d →
  is_Ok (restriction d) = true ∧ is_Ok (extension d) = true
  ∧ equals d d = Ok true.
Proof.
  intros Hi.
  apply DiscreteL2__init___Ok in Hi as (_ & _ & restr & ext & _ & _ & Hi).
  apply DiscrFacts.Discretization__init___Ok in Hi as (Hraw & _).
  apply DiscrFacts.RawDiscretization__init___Ok in Hraw as (-> & _).
  do 2 (split; [done|]).
  apply DiscrFacts.equals_true_iff_aux. repeat split. by eexists _, _.
Qed.

(** *** The convenience constructor *)

Section UniformFacts.

Variable grid : Type.
Variable GC NI : space → grid → space → string → result operator.
Variable cuda : bool.
Variable domain_mro : space → list string.
Variable uniform_sampling : space → list nat → result grid.
Variable ntotal : grid → nat.
Variable ds_type_call : space_type → nat → option string → result space.

Abbreviation uniform :=
  (l2_uniform_discretization grid GC NI cuda domain_mro uniform_sampling
                             ntotal ds_type_call).

(** X13. For an L2 space over an interval product, a backend that is
    not resolved is reported before anything is sampled or allocated:
    an unknown identifier and an unavailable 'cuda' end in their
    [ValueError]s, whatever the sample counts, the interpolation kind,
    the keyword arguments, the sampler and the data-space class do; a
    space that is not L2, or whose domain is not an interval product,
    ends in [TypeError] before the backend is looked at. *)
Theorem l2_uniform_backend_first l2space nsamples interp impl kwargs :
  (isinstance (sp_mro l2space) "L2" = false →
   uniform l2space nsamples interp impl kwargs =
     Raise (TypeError "space {} is not an L2 instance."))
  ∧ (isinstance (sp_mro l2space) "L2" = true →
     isinstance (domain_mro l2space) "IntervalProd" = false →
     uniform l2space nsamples interp impl kwargs =
       Raise (TypeError
                "domain {} of the L2 space is not an `IntervalProd` instance."))
  ∧ (isinstance (sp_mro l2space) "L2" = true →
     isinstance (domain_mro l2space) "IntervalProd" = true →
     (impl ≠ "numpy" → impl ≠ "cuda" →
      uniform l2space nsamples interp impl kwargs =
        Raise (ValueError "implementation type {} not understood."))
     ∧ (impl = "cuda" → cuda = false →
        uniform l2space nsamples interp impl kwargs =
          Raise (ValueError "CUDA implementation not available."))).
Proof.
  unfold l2_uniform_discretization. split; [by intros ->|].
  split; [by intros -> ->|]. intros -> ->. simpl. split.
  - intros Hn Hc. unfold dspace_type.
    rewrite DiscrFacts.str_in_false; [done|].
    rewrite !elem_of_cons, elem_of_nil. intros [?|[?|[]]]; done.
  - by intros -> ->.
Qed.

(** X14. When the convenience constructor succeeds, the space is L2 over
    an interval product, the kind is "nearest", the backend was resolved
    to a data-space class, the sampler produced a grid, and the class was
    called with the total number of grid points and the [dtype] keyword;
    the result discretizes [l2space] by that data space, has its
    dimension and dtype, and has ordering 'C'. *)
Theorem l2_uniform_success l2space nsamples interp impl kwargs d :
  uniform l2space nsamples interp impl kwargs = Ok d →
  isinstance (sp_mro l2space) "L2" = true
  ∧ isinstance (domain_mro l2space) "IntervalProd" = true
  ∧ interp = "nearest"
  ∧ ∃ st g ds,
      dspace_type cuda l2space impl = Ok st
      ∧ uniform_sampling l2space nsamples = Ok g
      ∧ ds_type_call st (ntotal g) (kwargs !! "dtype") = Ok ds
      ∧ uspace d = l2space ∧ dspace d = ds
      ∧ dim d = sp_dim ds ∧ dtype d = sp_dtype ds
      ∧ order d = "C".
Proof.
  unfold l2_uniform_discretization. intros Hi.
  destruct (isinstance (sp_mro l2space) "L2") eqn:HL; [|done].
  destruct (isinstance (domain_mro l2space) "IntervalProd") eqn:HI;
    [|done].
  simpl in Hi.
  destruct (dspace_type cuda l2space impl) as [st|] eqn:Hst; [|done].
  simpl in Hi.
  destruct (uniform_sampling l2space nsamples) as [g|] eqn:Hg; [|done].
  simpl in Hi.
  destruct (ds_type_call st (ntotal g) (kwargs !! "dtype")) as [ds|] eqn:Hds;
    [|done].
  simpl in Hi.
  apply DiscreteL2__init___Ok in Hi as (_ & -> & restr & ext & _ & _ & Hi).
  apply DiscrFacts.Discretization__init___Ok in Hi as (Hraw & _).
  apply DiscrFacts.RawDiscretization__init___Ok in Hraw as (-> & _).
  do 3 (split; [done|]). exists st, g, ds. by rewrite lookup_empty.
Qed.

End UniformFacts.

Lemma l2_uniform_backend_first_witness :
  l2_uniform_discretization unit Samples.sample_GridCollocation
    Samples.sample_NearestInterpolation false
    (λ _, ["IntervalProd"; "Set"]) (λ _ _, Ok tt) (λ _, 3)
    (λ _ _ _, Ok Samples.Rn3) Samples.L2_unit [3] "linear" "cuda" ∅
  = Raise (ValueError "CUDA implementation not available.").
Proof.
  destruct (l2_uniform_backend_first unit Samples.sample_GridCollocation
              Samples.sample_NearestInterpolation false
              (λ _, ["IntervalProd"; "Set"]) (λ _ _, Ok tt) (λ _, 3)
              (λ _ _ _, Ok Samples.Rn3) Samples.L2_unit [3] "linear" "cuda"
              ∅) as (_ & _ & Hb).
  destruct (Hb eq_refl eq_refl) as [_ Hc]. exact (Hc eq_refl eq_refl).
Defined.

Lemma l2_uniform_success_witness :
  ∃ d,
    l2_uniform_discretization unit Samples.sample_GridCollocation
      Samples.sample_NearestInterpolation false
      (λ _, ["IntervalProd"; "Set"]) (λ _ _, Ok tt) (λ _, 3)
      (λ _ _ _, Ok Samples.Rn3) Samples.L2_unit [3] "nearest" "numpy"
      {[ "dtype" := "float64" ]} = Ok d
    ∧ dspace d = Samples.Rn3 ∧ dim d = 3 ∧ order d = "C".
Proof.
  assert (∃ d,
    l2_uniform_discretization unit Samples.sample_GridCollocation
      Samples.sample_NearestInterpolation false
      (λ _, ["IntervalProd"; "Set"]) (λ _ _, Ok tt) (λ _, 3)
      (λ _ _ _, Ok Samples.Rn3) Samples.L2_unit [3] "nearest" "numpy"
      {[ "dtype" := "float64" ]} = Ok d) as [d Hd]
    by (eexists; reflexivity).
  exists d. split; [exact Hd|].
  destruct (l2_uniform_success unit Samples.sample_GridCollocation
              Samples.sample_NearestInterpolation false
              (λ _, ["IntervalProd"; "Set"]) (λ _ _, Ok tt) (λ _, 3)
              (λ _ _ _, Ok Samples.Rn3) Samples.L2_unit [3] "nearest"
              "numpy" {[ "dtype" := "float64" ]} d Hd)
    as (_ & _ & _ & st & g & ds & _ & _ & Hds & _ & Hdsp & Hdim & _ & Ho).
  injection Hds as <-. repeat split; assumption.
Defined.

Lemma DiscreteL2_equals_itself_witness :
  ∃ d,
    DiscreteL2__init__ unit Samples.sample_GridCollocation
      Samples.sample_NearestInterpolation Samples.L2_unit tt Samples.Rn3
      "nearest" ∅ = Ok d
    ∧ equals d d = Ok true.
Proof.
  assert (∃ d,
    DiscreteL2__init__ unit Samples.sample_GridCollocation
      Samples.sample_NearestInterpolation Samples.L2_unit tt Samples.Rn3
      "nearest" ∅ = Ok d) as [d Hd] by (eexists; reflexivity).
  exists d. split; [exact Hd|].
  exact (proj2 (proj2 (DiscreteL2_equals_itself unit
                         Samples.sample_GridCollocation
                         Samples.sample_NearestInterpolation
                         Samples.L2_unit tt Samples.Rn3 "nearest" ∅ d Hd))).
Defined.

End DefaultFacts.

(** ** Properties of odl/util/ufuncs.py *)

Module UfuncsFacts.
Import Py Ufuncs.

Lemma UFUNCS_shapes name n_in n_out :
  (name, n_in, n_out) ∈ UFUNCS →
  (n_in = 1 ∧ n_out = 1) ∨ (n_in = 2 ∧ n_out = 1)
  ∨ (name = "modf" ∧ n_in = 1 ∧ n_out = 2).
Proof.
  intros Hin.
  assert (forallb catalog_shape UFUNCS = true) as Hall
    by (vm_compute; reflexivity).
  rewrite forallb_forall in Hall.
  apply list_elem_of_In, Hall in Hin. unfold catalog_shape in Hin.
  destruct n_in as [|[|[|?]]], n_out as [|[|[|?]]]; try done; eauto.
  case_bool_decide; [|done]. eauto.
Qed.

Lemma in_UFUNCS name :
  str_in name RAW_UFUNCS = true → (name, np_nin name, np_nout name) ∈ UFUNCS.
Proof.
  unfold str_in. intros Hin%bool_decide_eq_true.
  unfold UFUNCS. apply list_elem_of_fmap. by exists name.
Qed.

Lemma bind_exact_out_kw (out : value) :
  bind_exact [("out", NONE)] [] {[ "out" := out ]} = Ok [out].
Proof.
  unfold bind_exact, bind_params. rewrite lookup_singleton_eq.
  rewrite delete_singleton_eq. reflexivity.
Qed.

Lemma bind_exact_x2_out_kw (x2 out : value) :
  bind_exact [("x2", None); ("out", NONE)] [x2] {[ "out" := out ]}
  = Ok [x2; out].
Proof.
  unfold bind_exact, bind_params.
  rewrite lookup_singleton_ne by done. rewrite lookup_singleton_eq.
  rewrite delete_singleton_eq. reflexivity.
Qed.

Lemma bind_exact_x2 (x2 : value) :
  bind_exact [("x2", None); ("out", NONE)] [x2] ∅ = Ok [x2; VNone].
Proof. unfold bind_exact, bind_params. rewrite !lookup_empty. done. Qed.

Lemma bind_exact_out12_none :
  bind_exact [("out1", NONE); ("out2", NONE)] [] ∅ = Ok [VNone; VNone].
Proof. unfold bind_exact, bind_params. rewrite !lookup_empty. done. Qed.

Lemma bind_exact_out1_pos (out1 : value) :
  bind_exact [("out1", NONE); ("out2", NONE)] [out1] ∅ = Ok [out1; VNone].
Proof. unfold bind_exact, bind_params. rewrite !lookup_empty. done. Qed.

Lemma bind_exact_out2_kw (out2 : value) :
  bind_exact [("out1", NONE); ("out2", NONE)] [] {[ "out2" := out2 ]}
  = Ok [VNone; out2].
Proof.
  unfold bind_exact, bind_params.
  rewrite lookup_singleton_ne by done. rewrite lookup_singleton_eq.
  rewrite delete_singleton_eq. reflexivity.
Qed.

Lemma bind_exact_out12_pos (out1 out2 : value) :
  bind_exact [("out1", NONE); ("out2", NONE)] [out1; out2] ∅
  = Ok [out1; out2].
Proof. unfold bind_exact, bind_params. rewrite !lookup_empty. done. Qed.

Lemma bind_exact_out12_kw (out1 out2 : value) :
  bind_exact [("out1", NONE); ("out2", NONE)] []
             {[ "out1" := out1; "out2" := out2 ]}
  = Ok [out1; out2].
Proof.
  unfold bind_exact, bind_params.
  rewrite lookup_insert_eq, delete_insert_eq.
  rewrite delete_singleton_ne by done.
  rewrite lookup_singleton_eq, delete_singleton_eq. reflexivity.
Qed.

(** *** Discretized-function elements *)

Section Discretelp.

Variable W : Type.
Variable getattr_ufuncs : value → string → callable W.
Variable space_element : string → option value → Py.M W value.
Variable contains : string → value → bool.

Abbreviation wrap_discretelp :=
  (wrap_ufunc_discretelp W getattr_ufuncs space_element contains).


End Discretelp.



(** *** Product-space elements *)

Section Productspace.

Variable W : Type.
Variable getattr_ufuncs : value → string → callable W.
Variable space_element : string → option value → Py.M W value.
Variable contains : string → value → bool.

Abbreviation wrap_productspace :=
  (wrap_ufunc_productspace W getattr_ufuncs space_element contains).

Lemma productspace_zip name f sp parts x2 x2s w :
  wrap_productspace name 2 1 = Ok f →
  contains sp x2 = true → iter x2 = Ok x2s →
  f (VProd sp parts) [x2] ∅ w =
    (result ← mapM (λ '(x, x2p), getattr_ufuncs x name [x2p] ∅)
                   (zip parts x2s);
     space_element sp (Some (VList result))) w.
Proof.
  intros [= <-] Hc Hit.
  unfold mbind at 1, M_bind at 1. rewrite bind_exact_x2.
  unfold lift, mbind, M_bind. simpl. rewrite Hc. simpl. by rewrite Hit.
Qed.

Lemma productspace_broadcast name f sp parts x2 w :
  wrap_productspace name 2 1 = Ok f →
  contains sp x2 = false →
  f (VProd sp parts) [x2] ∅ w =
    (result ← mapM (λ x, getattr_ufuncs x name [x2] ∅) parts;
     space_element sp (Some (VList result))) w.
Proof.
  intros [= <-] Hc.
  unfold mbind at 1, M_bind at 1. rewrite bind_exact_x2.
  unfold lift, mbind, M_bind. simpl. by rewrite Hc.
Qed.

(** C7. Every catalog operation with two inputs has one output, and the
    callable generated for it, on a product element with components
    [parts] in the space [sp] and a second operand [x2], without output
    buffer: when [x2] belongs to [sp], calls the operation on each
    component with the matching component of [x2] (zip); when [x2] does
    not belong to [sp], calls it on each component with [x2] itself; in
    both cases the list of component results is passed to [sp.element].
    In particular op(P(a,b), P(c,d)) is P(op(a,c), op(b,d)). *)
Theorem productspace_two_inputs name n_out :
  (name, 2, n_out) ∈ UFUNCS →
  n_out = 1 ∧
  ∃ f, wrap_productspace name 2 n_out = Ok f ∧
  (∀ sp parts x2 w,
     let elem := VProd sp parts in
     (contains sp x2 = true →
      ∀ x2s, iter x2 = Ok x2s →
        f elem [x2] ∅ w =
          (result ← mapM (λ '(x, x2p), getattr_ufuncs x name [x2p] ∅)
                         (zip parts x2s);
           space_element sp (Some (VList result))) w)
     ∧ (contains sp x2 = false →
        f elem [x2] ∅ w =
          (result ← mapM (λ x, getattr_ufuncs x name [x2] ∅) parts;
           space_element sp (Some (VList result))) w))
  ∧ (∀ sp a b c d w,
       contains sp (VProd sp [c; d]) = true →
       f (VProd sp [a; b]) [VProd sp [c; d]] ∅ w =
         (ra ← getattr_ufuncs a name [c] ∅;
          rb ← getattr_ufuncs b name [d] ∅;
          space_element sp (Some (VList [ra; rb]))) w).
Proof.
  intros Hin.
  destruct (UFUNCS_shapes _ _ _ Hin)
    as [[? ->]|[[_ ->]|(_ & ? & _)]]; [done| |done].
  split; [done|].
  assert (∃ f, wrap_productspace name 2 1 = Ok f) as [f Hf]
    by (eexists; reflexivity).
  exists f. split; [done|]. split.
  - intros sp parts x2 w elem. split.
    + intros Hc x2s Hit. by apply (productspace_zip name).
    + intros Hc. by apply (productspace_broadcast name).
  - intros sp a b c d w Hc.
    rewrite (productspace_zip name f sp [a; b] (VProd sp [c; d]) [c; d] w
               Hf Hc eq_refl).
    simpl. unfold mbind, M_bind, mret, M_ret.
    destruct (getattr_ufuncs a name [c] ∅ w) as [[ra w1]|]; [|done].
    destruct (getattr_ufuncs b name [d] ∅ w1) as [[rb w2]|]; done.
Qed.

End Productspace.

Lemma productspace_two_inputs_witness :
  let P := VProd "XxY" in
  let a := UfuncSamples.arr 1 in
  let b := UfuncSamples.arr 2 in
  let c := UfuncSamples.arr 3 in
  let d := UfuncSamples.arr 4 in
  ∃ add,
    wrap_ufunc_productspace UfuncSamples.trace UfuncSamples.traced_ufuncs
      UfuncSamples.sample_space_element UfuncSamples.sample_contains
      "add" 2 1 = Ok add
    ∧ add (P [a; b]) [P [c; d]] ∅ [] =
        Ok (P [UfuncSamples.arr 0; UfuncSamples.arr 2],
            [UfuncSamples.Call a "add" [c] ∅;
             UfuncSamples.Call b "add" [d] ∅])
    ∧ add (P [a; b]) [VScalar (SInt 5)] ∅ [] =
        Ok (P [UfuncSamples.arr 0; UfuncSamples.arr 2],
            [UfuncSamples.Call a "add" [VScalar (SInt 5)] ∅;
             UfuncSamples.Call b "add" [VScalar (SInt 5)] ∅]).
Proof.
  intros P a b c d. subst P a b c d.
  destruct (productspace_two_inputs UfuncSamples.trace
              UfuncSamples.traced_ufuncs UfuncSamples.sample_space_element
              UfuncSamples.sample_contains "add" 1)
    as (_ & add & Hadd & Hgen & Hpair); [by apply (in_UFUNCS "add")|].
  exists add. split; [done|]. split.
  - rewrite Hpair by reflexivity. reflexivity.
  - destruct (Hgen "XxY" [UfuncSamples.arr 1; UfuncSamples.arr 2]
                (VScalar (SInt 5)) []) as [_ ->]; reflexivity.
Defined.

(** *** Reductions *)

Lemma carried_weighting_not_array sp w :
  carried_weighting sp = Some w → is_ArrayWeighting w = false.
Proof.
  unfold carried_weighting.
  destruct (ts_weighting sp) as [[]|]; intros; by simplify_eq.
Qed.

Lemma bind_params_reduction axis out keepdims (kwargs : gmap string value) :
  kwargs !! "axis" = None → kwargs !! "out" = None →
  kwargs !! "keepdims" = None →
  bind_params [("axis", Some VNone); ("out", Some VNone);
               ("keepdims", Some (VScalar (SBool false)))]
              [axis; out; keepdims] kwargs
  = Ok ([axis; out; keepdims], kwargs).
Proof. intros Ha Ho Hk. unfold bind_params. by rewrite Ha, Ho, Hk. Qed.

Section ReductionFacts.

Variable W : Type.
Variable np_call : string → value → gmap string value → Py.M W value.

(** C8. Let a reduction be called on a base-tensor element [elem] of the
    space [sp]. Without an output buffer: a scalar raw result is returned
    as it is and no space is constructed; an array result is wrapped as
    an element of one newly constructed space of the class of [sp], with
    the shape of the result, the requested dtype, the ordering and the
    exponent of [sp], and the weighting of [sp] unless that is an array
    weighting, which is replaced by the no-op weighting; so the new space
    never has an array weighting. With an output buffer [out]: numpy is
    called with [out.data] as its target, [out] itself is returned and
    no space is constructed. *)
Theorem reduction_rebuild name sp data axis keepdims kwargs s :
  kwargs !! "axis" = None → kwargs !! "out" = None →
  kwargs !! "keepdims" = None →
  let elem := VTensor sp data in
  let kw := reduction_kwargs axis keepdims kwargs in
  (∀ r w',
     np_call name elem kw (backend s) = Ok (r, w') →
     (np_isscalar r = true →
      wrap_reduction_numpy W np_call name elem [axis; VNone; keepdims]
                           kwargs s
        = Ok (r, RState w' (constructed s)))
     ∧ (∀ a dt,
          r = VArr a →
          default (VScalar (ts_dtype sp)) (kw !! "dtype") = VScalar dt →
          let out_space :=
            TensorSpace (ts_type sp) (a_shape a) dt (ts_order sp)
                        (ts_exponent sp) (carried_weighting sp) in
          wrap_reduction_numpy W np_call name elem [axis; VNone; keepdims]
                               kwargs s
            = Ok (VTensor out_space a,
                  RState w' (constructed s ++ [out_space]))
          ∧ ∀ wt, ts_weighting out_space = Some wt →
                  is_ArrayWeighting wt = false))
  ∧ (∀ osp odata r w',
       let out := VTensor osp odata in
       np_call name elem (<["out" := VArr odata]> kw) (backend s)
         = Ok (r, w') →
       wrap_reduction_numpy W np_call name elem [axis; out; keepdims]
                            kwargs s
         = Ok (out, RState w' (constructed s))).
Proof.
  intros Ha Ho Hk elem kw. split.
  - intros r w' Hcall. split.
    + intros Hsc. unfold wrap_reduction_numpy.
      unfold mbind at 1, M_bind at 1.
      rewrite bind_params_reduction by done. simpl lift. cbv iota beta.
      fold kw. unfold mbind, M_bind, backend_call. simpl.
      rewrite Hcall. by rewrite Hsc.
    + intros a dt -> Hdt out_space. split.
      * unfold wrap_reduction_numpy.
        unfold mbind at 1, M_bind at 1.
        rewrite bind_params_reduction by done. simpl lift. cbv iota beta.
        fold kw. unfold mbind, M_bind, backend_call. simpl.
        rewrite Hcall. simpl. rewrite Hdt.
        unfold construct_space, out_space, carried_weighting.
        destruct (ts_exponent sp), (ts_weighting sp) as [[]|];
          reflexivity.
      * intros wt Hwt. by apply (carried_weighting_not_array sp).
  - intros osp odata r w' out Hcall. unfold wrap_reduction_numpy.
    unfold mbind at 1, M_bind at 1.
    rewrite bind_params_reduction by done. simpl lift. cbv iota beta.
    fold kw. unfold mbind, M_bind, backend_call. simpl. by rewrite Hcall.
Qed.

End ReductionFacts.

Lemma reduction_rebuild_witness :
  let sum := wrap_reduction_numpy nat UfuncSamples.sample_np_call "sum" in
  let x := UfuncSamples.weighted_elem in
  let no := VScalar (SBool false) in
  let out := VTensor UfuncSamples.reduced_space (Array [3] 5) in
  sum x [VNone; VNone; no] ∅ (RState 1 []) =
    Ok (VScalar (SInt 6), RState 2 [])
  ∧ sum x [VScalar (SInt 0); VNone; no] ∅ (RState 1 []) =
    Ok (VTensor UfuncSamples.reduced_space (Array [3] 1),
        RState 2 [UfuncSamples.reduced_space])
  ∧ sum x [VScalar (SInt 0); out; no] ∅ (RState 1 []) =
    Ok (out, RState 2 []).
Proof.
  intros sum x no out. subst sum x no out.
  split; [|split].
  - destruct (reduction_rebuild nat UfuncSamples.sample_np_call "sum"
                UfuncSamples.weighted_space (Array [2; 3] 0) VNone
                (VScalar (SBool false)) ∅ (RState 1 []))
      as [Hno _]; [reflexivity..|].
    destruct (Hno (VScalar (SInt 6)) 2 eq_refl) as [Hsc _].
    exact (Hsc eq_refl).
  - destruct (reduction_rebuild nat UfuncSamples.sample_np_call "sum"
                UfuncSamples.weighted_space (Array [2; 3] 0)
                (VScalar (SInt 0)) (VScalar (SBool false)) ∅ (RState 1 []))
      as [Hno _]; [reflexivity..|].
    destruct (Hno (VArr (Array [3] 1)) 2 eq_refl) as [_ Harr].
    destruct (Harr (Array [3] 1) (SStr "float64") eq_refl eq_refl)
      as [Hrun _].
    exact Hrun.
  - destruct (reduction_rebuild nat UfuncSamples.sample_np_call "sum"
                UfuncSamples.weighted_space (Array [2; 3] 0)
                (VScalar (SInt 0)) (VScalar (SBool false)) ∅ (RState 1 []))
      as [_ Hout]; [reflexivity..|].
    exact (Hout UfuncSamples.reduced_space (Array [3] 5)
                (VArr (Array [3] 5)) 2 eq_refl).
Defined.

(** *** Which shapes the generators accept *)

Lemma UFUNCS_entry name n_in n_out :
  (name, n_in, n_out) ∈ UFUNCS →
  str_in name RAW_UFUNCS = true ∧ np_nin name = n_in ∧ np_nout name = n_out.
Proof.
  unfold UFUNCS. intros (n & [= -> <- <-] & Hn)%list_elem_of_fmap.
  by rewrite DiscrFacts.str_in_true.
Qed.

(** X15. The generator for base tensors looks the name up in numpy
    before anything else: for a name numpy lacks it ends in
    [AttributeError] whatever the shape is; for a name numpy has, it
    yields a wrapper exactly for the shapes (1,1), (1,2), (2,1) and ends
    in [NotImplementedError] for every other shape. The generators for
    discretized and for product elements do not look the name up: they
    yield a wrapper exactly for these shapes and (1,0), and end in
    [NotImplementedError] otherwise. Every entry of the catalog has a
    shape that all three accept, so for the names of the catalog, which
    numpy has, the loops that attach the methods to the facade classes
    do not fail. *)
Theorem generator_shapes W np au ga se ct name n_in n_out :
  (np name = false →
   wrap_ufunc_base W np au name n_in n_out = Raise (AttributeError name))
  ∧ (np name = true →
     (is_Ok (wrap_ufunc_base W np au name n_in n_out) = true ↔
      (n_in, n_out) ∈ base_shapes)
     ∧ ((n_in, n_out) ∉ base_shapes →
        wrap_ufunc_base W np au name n_in n_out
        = Raise (NotImplementedError "")))
  ∧ (is_Ok (wrap_ufunc_discretelp W ga se ct name n_in n_out) = true ↔
     (n_in, n_out) ∈ wrapper_shapes)
  ∧ (is_Ok (wrap_ufunc_productspace W ga se ct name n_in n_out) = true ↔
     (n_in, n_out) ∈ wrapper_shapes)
  ∧ ((n_in, n_out) ∉ wrapper_shapes →
     wrap_ufunc_discretelp W ga se ct name n_in n_out
     = Raise (NotImplementedError "")
     ∧ wrap_ufunc_productspace W ga se ct name n_in n_out
       = Raise (NotImplementedError ""))
  ∧ ((name, n_in, n_out) ∈ UFUNCS →
     (n_in, n_out) ∈ base_shapes ∧ (n_in, n_out) ∈ wrapper_shapes
     ∧ (np name = true →
        is_Ok (wrap_ufunc_base W np au name n_in n_out) = true)).
Proof.
  unfold base_shapes, wrapper_shapes.
  split; [|split; [|split; [|split; [|split]]]].
  - intros Hnp. unfold wrap_ufunc_base. by rewrite Hnp.
  - intros Hnp. unfold wrap_ufunc_base. rewrite Hnp. simpl. split.
    + destruct n_in as [|[|[|?]]], n_out as [|[|[|?]]]; simpl;
        rewrite !elem_of_cons, elem_of_nil; naive_solver.
    + rewrite !elem_of_cons, elem_of_nil.
      destruct n_in as [|[|[|?]]], n_out as [|[|[|?]]]; simpl;
        naive_solver.
  - destruct n_in as [|[|[|?]]], n_out as [|[|[|?]]]; simpl;
      rewrite !elem_of_cons, elem_of_nil; naive_solver.
  - destruct n_in as [|[|[|?]]], n_out as [|[|[|?]]]; simpl;
      rewrite !elem_of_cons, elem_of_nil; naive_solver.
  - rewrite !elem_of_cons, elem_of_nil.
    destruct n_in as [|[|[|?]]], n_out as [|[|[|?]]]; simpl;
      naive_solver.
  - intros Hin. rewrite !elem_of_cons, !elem_of_nil.
    unfold wrap_ufunc_base.
    destruct (UFUNCS_shapes _ _ _ Hin)
      as [[-> ->]|[[-> ->]|(_ & -> & ->)]];
      (split; [naive_solver|split; [naive_solver|]]);
      by intros ->.
Qed.

Lemma generator_shapes_witness :
  let au : value → string → string → list value → gmap string value →
           Py.M UfuncSamples.trace value :=
    λ _ _ _ _ _, raise (TypeError "") in
  let np name := str_in name RAW_UFUNCS in
  is_Ok (wrap_ufunc_base UfuncSamples.trace np au "modf" 1 2) = true
  ∧ wrap_ufunc_base UfuncSamples.trace np au "modf" 2 2
    = Raise (NotImplementedError "")
  ∧ wrap_ufunc_base UfuncSamples.trace np au "frexp" 1 2
    = Raise (AttributeError "frexp").
Proof.
  intros au np.
  destruct (generator_shapes UfuncSamples.trace np au
              UfuncSamples.traced_ufuncs UfuncSamples.sample_space_element
              UfuncSamples.sample_contains "modf" 1 2)
    as (_ & _ & _ & _ & _ & Hcat).
  destruct (generator_shapes UfuncSamples.trace np au
              UfuncSamples.traced_ufuncs UfuncSamples.sample_space_element
              UfuncSamples.sample_contains "modf" 2 2)
    as (_ & Hhas & _).
  destruct (generator_shapes UfuncSamples.trace np au
              UfuncSamples.traced_ufuncs UfuncSamples.sample_space_element
              UfuncSamples.sample_contains "frexp" 1 2)
    as (Hlacks & _).
  split; [|split].
  - apply Hcat; [by apply (in_UFUNCS "modf")|reflexivity].
  - apply (Hhas eq_refl). unfold base_shapes.
    rewrite !elem_of_cons, elem_of_nil. intros [?|[?|[?|[]]]]; done.
  - apply Hlacks. reflexivity.
Defined.

(** *** A discretized element over a base tensor *)

Lemma bind_exact_none :
  bind_exact [("out", NONE)] [] ∅ = Ok [VNone].
Proof. unfold bind_exact, bind_params. rewrite !lookup_empty. done. Qed.

Lemma bind_exact_out_pos (x2 out : value) :
  bind_exact [("x2", None); ("out", NONE)] [x2; out] ∅ = Ok [x2; out].
Proof. unfold bind_exact, bind_params. rewrite !lookup_empty. done. Qed.

Section DiscretelpOverBase.

Variable W : Type.
Variable np_hasattr : string → bool.
Variable array_ufunc :
  value → string → string → list value → gmap string value → Py.M W value.
Variable space_element : string → option value → Py.M W value.
Variable contains : string → value → bool.

#[local] Arguments TensorSpaceUfuncs : simpl never.

Lemma TensorSpaceUfuncs_catalog t name n_in n_out f :
  (name, n_in, n_out) ∈ UFUNCS →
  wrap_ufunc_base W np_hasattr array_ufunc name n_in n_out = Ok f →
  TensorSpaceUfuncs W np_hasattr array_ufunc t name = f t.
Proof.
  intros (Hs & <- & <-)%UFUNCS_entry Hf.
  unfold TensorSpaceUfuncs. by rewrite Hs, Hf.
Qed.


End DiscretelpOverBase.


(** *** Product elements: lengths and output buffers *)

Lemma zip_take_l {A B} (xs : list A) (ys : list B) :
  zip (take (length ys) xs) ys = zip xs ys.
Proof.
  revert ys. induction xs as [|x xs IH]; intros [|y ys]; simpl; try done.
  by rewrite IH.
Qed.

Lemma mapM_length {S A B} (f : A → Py.M S B) xs s rs s' :
  mapM f xs s = Ok (rs, s') → length rs = length xs.
Proof.
  revert s rs. induction xs as [|x xs IH]; intros s rs; simpl.
  - by intros [= <- <-].
  - unfold mbind, M_bind.
    destruct (f x s) as [[y s1]|]; [|done].
    destruct (mapM f xs s1) as [[ys s2]|] eqn:Hxs; [|done].
    intros [= <- <-]. simpl. f_equal. by eapply IH.
Qed.

Section ProductLengths.

Variable W : Type.
Variable getattr_ufuncs : value → string → callable W.
Variable space_element : string → option value → Py.M W value.
Variable contains : string → value → bool.

(** X17. A second operand that belongs to the product space is zipped
    without a check of its length: when it has fewer components than
    the element, the components of the element beyond that length are
    not used at all (the call is the call on the truncated element), and
    the list given to [space.element] has the length of the shorter of
    the two. *)
Theorem productspace_zip_truncates name f sp parts x2 x2s w :
  wrap_ufunc_productspace W getattr_ufuncs space_element contains name 2 1
    = Ok f →
  contains sp x2 = true → iter x2 = Ok x2s →
  f (VProd sp parts) [x2] ∅ w
    = f (VProd sp (take (length x2s) parts)) [x2] ∅ w
  ∧ ∀ rs w',
      mapM (λ '(x, x2p), getattr_ufuncs x name [x2p] ∅) (zip parts x2s) w
        = Ok (rs, w') →
      length rs = length parts `min` length x2s
      ∧ f (VProd sp parts) [x2] ∅ w = space_element sp (Some (VList rs)) w'.
Proof.
  intros Hf Hc Hit. split.
  - rewrite !(productspace_zip W getattr_ufuncs space_element contains
                name f sp _ x2 x2s w Hf Hc Hit).
    by rewrite zip_take_l.
  - intros rs w' Hrs. split.
    + apply mapM_length in Hrs. rewrite Hrs. apply length_zip_with.
    + rewrite (productspace_zip W getattr_ufuncs space_element contains
                 name f sp _ x2 x2s w Hf Hc Hit).
      unfold mbind, M_bind. by rewrite Hrs.
Qed.

End ProductLengths.

Lemma productspace_zip_truncates_witness :
  ∃ add,
    wrap_ufunc_productspace UfuncSamples.trace UfuncSamples.traced_ufuncs
      UfuncSamples.sample_space_element UfuncSamples.sample_contains
      "add" 2 1 = Ok add
    ∧ add (VProd "XxY" [UfuncSamples.arr 1; UfuncSamples.arr 2])
          [VProd "XxY" [UfuncSamples.arr 3]] ∅ []
      = add (VProd "XxY" [UfuncSamples.arr 1])
            [VProd "XxY" [UfuncSamples.arr 3]] ∅ [].
Proof.
  assert (∃ add,
    wrap_ufunc_productspace UfuncSamples.trace UfuncSamples.traced_ufuncs
      UfuncSamples.sample_space_element UfuncSamples.sample_contains
      "add" 2 1 = Ok add) as [add Hadd] by (eexists; reflexivity).
  exists add. split; [exact Hadd|].
  exact (proj1 (productspace_zip_truncates UfuncSamples.trace
                  UfuncSamples.traced_ufuncs
                  UfuncSamples.sample_space_element
                  UfuncSamples.sample_contains "add" add "XxY"
                  [UfuncSamples.arr 1; UfuncSamples.arr 2]
                  (VProd "XxY" [UfuncSamples.arr 3]) [UfuncSamples.arr 3]
                  [] Hadd eq_refl eq_refl)).
Defined.

(** X18. With an output buffer, the wrappers of discretized and of
    product elements never ask the space for an element: the outcome of
    a one-output operation called with [out=buf] is the same for any two
    behaviours of [space.element], and when the call completes its
    value is [buf] itself. *)
Theorem out_buffer_needs_no_element W getattr_ufuncs se1 se2 contains
    name n_in fd1 fd2 fp1 fp2 elem x2 out w :
  n_in = 1 ∨ n_in = 2 →
  is_None out = false →
  wrap_ufunc_discretelp W getattr_ufuncs se1 contains name n_in 1 = Ok fd1 →
  wrap_ufunc_discretelp W getattr_ufuncs se2 contains name n_in 1 = Ok fd2 →
  wrap_ufunc_productspace W getattr_ufuncs se1 contains name n_in 1
    = Ok fp1 →
  wrap_ufunc_productspace W getattr_ufuncs se2 contains name n_in 1
    = Ok fp2 →
  let args := if bool_decide (n_in = 1) then [] else [x2] in
  let kw : gmap string value := {[ "out" := out ]} in
  fd1 elem args kw w = fd2 elem args kw w
  ∧ fp1 elem args kw w = fp2 elem args kw w
  ∧ (∀ r w', fd1 elem args kw w = Ok (r, w') → r = out)
  ∧ (∀ r w', fp1 elem args kw w = Ok (r, w') → r = out).
Proof.
  intros Hn Hout Hd1 Hd2 Hp1 Hp2.
  destruct Hn as [-> | ->]; simpl in *; simplify_eq; simpl.
  - assert (∀ (k : list value → Py.M W value),
              (lift (bind_exact [("out", NONE)] [] {[ "out" := out ]})
                 ≫= k) w = k [out] w) as Hb.
    { intros k. unfold mbind, M_bind. by rewrite bind_exact_out_kw. }
    rewrite !Hb, Hout. do 2 (split; [reflexivity|]).
    split; intros r w' Hrun;
      unfold mbind, M_bind, lift, mret, M_ret in Hrun;
      repeat (case_match; simplify_eq); done.
  - assert (∀ (k : list value → Py.M W value),
              (lift (bind_exact [("x2", None); ("out", NONE)] [x2]
                                {[ "out" := out ]}) ≫= k) w
              = k [x2; out] w) as Hb.
    { intros k. unfold mbind, M_bind. by rewrite bind_exact_x2_out_kw. }
    rewrite !Hb, Hout. do 2 (split; [reflexivity|]).
    split; intros r w' Hrun;
      unfold mbind, M_bind, lift, mret, M_ret in Hrun;
      repeat (case_match; simplify_eq); done.
Qed.

Lemma out_buffer_needs_no_element_witness :
  let failing : string → option value → Py.M UfuncSamples.trace value :=
    λ _ _, raise (TypeError "no element") in
  ∃ sin1 sin2,
    wrap_ufunc_discretelp UfuncSamples.trace UfuncSamples.traced_ufuncs
      UfuncSamples.sample_space_element UfuncSamples.sample_contains
      "sin" 1 1 = Ok sin1
    ∧ wrap_ufunc_discretelp UfuncSamples.trace UfuncSamples.traced_ufuncs
        failing UfuncSamples.sample_contains "sin" 1 1 = Ok sin2
    ∧ sin1 (VDiscr "X" (UfuncSamples.arr 1)) []
           {[ "out" := VDiscr "X" (UfuncSamples.arr 2) ]} []
      = sin2 (VDiscr "X" (UfuncSamples.arr 1)) []
             {[ "out" := VDiscr "X" (UfuncSamples.arr 2) ]} [].
Proof.
  intros failing. eexists _, _. split; [reflexivity|]. split; [reflexivity|].
  destruct (out_buffer_needs_no_element UfuncSamples.trace
              UfuncSamples.traced_ufuncs UfuncSamples.sample_space_element
              failing UfuncSamples.sample_contains
              "sin" 1 _ _ _ _ (VDiscr "X" (UfuncSamples.arr 1)) VNone
              (VDiscr "X" (UfuncSamples.arr 2)) []
              (or_introl eq_refl) eq_refl eq_refl eq_refl eq_refl eq_refl)
    as (Hsame & _).
  exact Hsame.
Defined.

(** *** Reductions: the keywords numpy receives *)

Lemma reduction_kwargs_lookup axis keepdims (kwargs : gmap string value) k :
  reduction_kwargs axis keepdims kwargs !! k =
    if bool_decide (k = "keepdims") then Some keepdims
    else if bool_decide (k = "axis") && negb (is_None axis) then Some axis
    else if bool_decide (k ∈ ["a"; "b"; "out"]) then None
    else kwargs !! k.
Proof.
  unfold reduction_kwargs.
  case_bool_decide as Hk; [subst; by rewrite lookup_insert_eq|].
  rewrite lookup_insert_ne by done.
  assert (∀ m : gmap string value,
            delete "out" (delete "b" (delete "a" m)) !! k =
              if bool_decide (k ∈ ["a"; "b"; "out"]) then None
              else m !! k) as Hdel.
  { intros m. case_bool_decide as Hin.
    - rewrite !elem_of_cons, elem_of_nil in Hin.
      destruct Hin as [->|[->|[->|[]]]];
        repeat first [ rewrite lookup_delete_eq
                     | rewrite lookup_delete_ne by done ];
        done.
    - rewrite !elem_of_cons, elem_of_nil in Hin.
      rewrite !lookup_delete_ne by naive_solver. done. }
  destruct (is_None axis) eqn:Hax.
  - rewrite andb_false_r. apply Hdel.
  - rewrite andb_true_r. destruct (decide (k = "axis")) as [->|Ha].
    + by rewrite lookup_insert_eq.
    + rewrite lookup_insert_ne by done.
      rewrite (bool_decide_eq_false_2 (k = "axis")) by done. apply Hdel.
Qed.

(** The keywords after the first statements of the wrapper: [keepdims]
    always; [axis] when it is not [None]; never [a], [b] or [out]; every
    other keyword unchanged. *)
Lemma reduction_keywords axis keepdims (kwargs : gmap string value) :
  reduction_kwargs axis keepdims kwargs !! "keepdims" = Some keepdims
  ∧ reduction_kwargs axis keepdims kwargs !! "a" = None
  ∧ reduction_kwargs axis keepdims kwargs !! "b" = None
  ∧ reduction_kwargs axis keepdims kwargs !! "out" = None
  ∧ (is_None axis = false →
     reduction_kwargs axis keepdims kwargs !! "axis" = Some axis)
  ∧ (is_None axis = true →
     reduction_kwargs axis keepdims kwargs !! "axis" = kwargs !! "axis")
  ∧ (∀ k, k ∉ ["keepdims"; "axis"; "a"; "b"; "out"] →
       reduction_kwargs axis keepdims kwargs !! k = kwargs !! k).
Proof.
  split; [by rewrite reduction_kwargs_lookup|].
  split; [by rewrite reduction_kwargs_lookup|].
  split; [by rewrite reduction_kwargs_lookup|].
  split; [by rewrite reduction_kwargs_lookup|].
  split; [|split].
  - intros Hax. rewrite reduction_kwargs_lookup. simpl. by rewrite Hax.
  - intros Hax. rewrite reduction_kwargs_lookup. simpl. by rewrite Hax.
  - intros k Hk. rewrite reduction_kwargs_lookup.
    rewrite !elem_of_cons, elem_of_nil in Hk.
    rewrite !bool_decide_eq_false_2; [done|..].
    + rewrite !elem_of_cons, elem_of_nil. naive_solver.
    + naive_solver.
    + naive_solver.
Qed.

(** X19. Numpy is never called by a reduction with a keyword [a] or [b]
    and always with the keyword [keepdims]: the outcome of a reduction
    call is the same for any two backends that agree on the calls
    without [a] and [b] and with [keepdims], whatever the arguments and
    keywords of the call are. *)
Theorem reduction_backend_keywords W np1 np2 name elem args
    (kwargs : gmap string value) s :
  (∀ kw w, kw !! "a" = None → kw !! "b" = None →
           is_Some (kw !! "keepdims") →
           np1 name elem kw w = np2 name elem kw w) →
  wrap_reduction_numpy W np1 name elem args kwargs s
  = wrap_reduction_numpy W np2 name elem args kwargs s.
Proof.
  intros Hnp.
  unfold wrap_reduction_numpy, mbind, M_bind, lift.
  destruct (bind_params _ args kwargs) as [[vs kw]|]; [|done].
  destruct vs as [|axis [|out [|keepdims [|]]]]; try done.
  destruct (reduction_keywords axis keepdims kw)
    as (Hk & Ha & Hb & _).
  destruct (attr_dtype elem) as [dt|]; [|done].
  destruct (is_None out).
  - unfold backend_call. by rewrite Hnp by eauto.
  - destruct (attr_data out) as [data|]; [|done].
    unfold backend_call.
    by rewrite Hnp by (rewrite ?lookup_insert_ne by done; eauto).
Qed.

Lemma reduction_backend_keywords_witness :
  let strict : string → value → gmap string value → Py.M nat value :=
    λ name elem kw,
      if bool_decide (kw !! "a" = None) then
        UfuncSamples.sample_np_call name elem kw
      else raise (TypeError "unexpected keyword") in
  wrap_reduction_numpy nat UfuncSamples.sample_np_call "sum"
    UfuncSamples.weighted_elem [] {[ "a" := VScalar (SInt 1) ]}
    (RState 0 [])
  = wrap_reduction_numpy nat strict "sum"
      UfuncSamples.weighted_elem [] {[ "a" := VScalar (SInt 1) ]}
      (RState 0 []).
Proof.
  intros strict.
  apply (reduction_backend_keywords nat UfuncSamples.sample_np_call strict).
  intros kw w Ha _ _. subst strict. simpl.
  by rewrite bool_decide_eq_true_2.
Defined.

Lemma bind_params_delete params k args (kwargs : gmap string value) :
  k ∉ params.*1 →
  bind_params params args (delete k kwargs) =
    match bind_params params args kwargs with
    | Ok (vs, kw) => Ok (vs, delete k kw)
    | Raise e => Raise e
    end.
Proof.
  revert args kwargs.
  induction params as [|[p dflt] ps IH]; intros args kwargs Hk.
  - by destruct args.
  - rewrite fmap_cons, not_elem_of_cons in Hk. destruct Hk as [Hkp Hk].
    simpl in Hkp. simpl.
    rewrite lookup_delete_ne by done.
    destruct args as [|a args'].
    + destruct (kwargs !! p) as [v|].
      * rewrite delete_delete. rewrite (IH _ _ Hk).
        destruct (bind_params ps [] (delete p kwargs)) as [[vs kw]|]; done.
      * destruct dflt as [v|]; [|done]. rewrite (IH _ _ Hk).
        destruct (bind_params ps [] kwargs) as [[vs kw]|]; done.
    + destruct (kwargs !! p) as [v|]; [done|]. rewrite (IH _ _ Hk).
      destruct (bind_params ps args' kwargs) as [[vs kw]|]; done.
Qed.

Lemma reduction_kwargs_delete axis keepdims (kwargs : gmap string value) k :
  k ∈ ["a"; "b"] →
  reduction_kwargs axis keepdims (delete k kwargs)
  = reduction_kwargs axis keepdims kwargs.
Proof.
  intros Hk. apply map_eq. intros j. rewrite !reduction_kwargs_lookup.
  repeat case_match; try done.
  rewrite !elem_of_cons, elem_of_nil in Hk.
  rewrite lookup_delete_ne; [done|].
  match goal with H : bool_decide (j ∈ _) = false |- _ =>
    apply bool_decide_eq_false in H;
    rewrite !elem_of_cons, elem_of_nil in H end.
  naive_solver.
Qed.

(** X20. Keywords [a] and [b] of a reduction call have no effect: the
    call with them and the call without them do the same. *)
Theorem reduction_drops_a_b W np_call name elem args
    (kwargs : gmap string value) s :
  wrap_reduction_numpy W np_call name elem args kwargs s
  = wrap_reduction_numpy W np_call name elem args
      (delete "a" (delete "b" kwargs)) s.
Proof.
  unfold wrap_reduction_numpy, mbind, M_bind, lift.
  rewrite !bind_params_delete
    by (simpl; rewrite !elem_of_cons, elem_of_nil; naive_solver).
  destruct (bind_params _ args kwargs) as [[vs kw]|]; [|done].
  destruct vs as [|axis [|out [|keepdims [|]]]]; try done.
  rewrite !(reduction_kwargs_delete axis keepdims _ "a")
    by (rewrite !elem_of_cons; naive_solver).
  rewrite !(reduction_kwargs_delete axis keepdims _ "b")
    by (rewrite !elem_of_cons; naive_solver).
  done.
Qed.

End UfuncsFacts.
